(** * docspec_python.namespace_packages: path patterns and module roots

    A shallow embedding of [namespace_packages.py]: the git-ignore style
    matcher [RelPathPattern], the fold step [root_reducer], the namespace
    marker test [is_namespace_init] and the discovery function
    [find_module_roots], followed by the properties established for them.

    Python [str] values are Rocq strings whose characters stand for the code
    points below 256.  Paths are the POSIX flavour of [pathlib]: a path is
    the list of its [parts], an absolute one starting with its root part. *)

From Stdlib Require Import List String Ascii Bool Arith Lia.
Import ListNotations.

Open Scope string_scope.
Open Scope list_scope.

(** ** Exceptions *)

Inductive exn : Type :=
| ValueError
| AssertionError
| OSError.

Inductive result (A : Type) : Type :=
| Ok (a : A)
| Raise (e : exn).

Arguments Ok {A} a.
Arguments Raise {A} e.

Definition bind {A B : Type} (r : result A) (k : A -> result B) : result B :=
  match r with
  | Ok a => k a
  | Raise e => Raise e
  end.

Notation "x <- r ;; k" := (bind r (fun x => k))
  (at level 61, r at next level, right associativity).

Fixpoint mapM {A B : Type} (f : A -> result B) (l : list A) : result (list B) :=
  match l with
  | [] => Ok []
  | a :: l' => b <- f a ;; bs <- mapM f l' ;; Ok (b :: bs)
  end.

(** ** The methods of [str] the module calls *)

Definition slash : ascii := "/"%char.
Definition newline : ascii := ascii_of_nat 10.
Definition tab : ascii := ascii_of_nat 9.
Definition nl : string := String newline "".

(** [str.isspace] on one character: the white space code points below 256. *)
Definition isspace (c : ascii) : bool :=
  let n := nat_of_ascii c in
  ((9 <=? n)%nat && (n <=? 13)%nat) || ((28 <=? n)%nat && (n <=? 32)%nat)
  || (n =? 133)%nat || (n =? 160)%nat.

(** [s.startswith(p)] *)
Fixpoint startswith (p s : string) : bool :=
  match p, s with
  | "", _ => true
  | String a p', String b s' => Ascii.eqb a b && startswith p' s'
  | String _ _, "" => false
  end.

(** [s.endswith(c)] for a one character suffix *)
Fixpoint endswith (c : ascii) (s : string) : bool :=
  match s with
  | "" => false
  | String a "" => Ascii.eqb a c
  | String _ s' => endswith c s'
  end.

(** [s.lstrip] and [s.rstrip] over a set of characters given as a test *)
Fixpoint lstrip (f : ascii -> bool) (s : string) : string :=
  match s with
  | "" => ""
  | String c s' => if f c then lstrip f s' else s
  end.

Fixpoint rstrip (f : ascii -> bool) (s : string) : string :=
  match s with
  | "" => ""
  | String c s' =>
      match rstrip f s' with
      | "" => if f c then "" else String c ""
      | r => String c r
      end
  end.

(** [s.strip()] *)
Definition strip (s : string) : string := rstrip isspace (lstrip isspace s).

(** [c in s] for one character *)
Fixpoint contains (c : ascii) (s : string) : bool :=
  match s with
  | "" => false
  | String a s' => Ascii.eqb a c || contains c s'
  end.

(** [s.split(sep)] for a one character separator: never the empty list *)
Fixpoint split (sep : ascii) (s : string) : list string :=
  match s with
  | "" => [""]
  | String c s' =>
      if Ascii.eqb c sep then "" :: split sep s'
      else match split sep s' with
           | [] => [String c ""]
           | w :: ws => String c w :: ws
           end
  end.

(** [sep.join(l)] *)
Fixpoint join (sep : string) (l : list string) : string :=
  match l with
  | [] => ""
  | [w] => w
  | w :: l' => w ++ sep ++ join sep l'
  end.

Definition nonempty (s : string) : bool :=
  match s with
  | "" => false
  | _ => true
  end.

(** [s.rfind('.')]: the index of the last dot, if there is one *)
Fixpoint rfind_dot (s : string) : option nat :=
  match s with
  | "" => None
  | String c s' =>
      match rfind_dot s' with
      | Some i => Some (S i)
      | None => if Ascii.eqb c "."%char then Some 0 else None
      end
  end.

(** [s[:n]] *)
Fixpoint take (n : nat) (s : string) : string :=
  match n, s with
  | S n', String c s' => String c (take n' s')
  | _, _ => ""
  end.

(** ** [fnmatch.fnmatch] on a POSIX host

    The standard library translates the pattern to a regular expression and
    asks for a full match.  The tokens below are that translation: [*] any
    run of characters, [?] any one character, a bracket expression (with a
    leading [!] for the complement, a closing bracket in first position taken
    literally, and an unclosed opening bracket standing for itself), and any
    other character standing for itself. *)

Inductive glob_token : Type :=
| GStar
| GAny
| GClass (negated : bool) (items : list (ascii * ascii))
| GLit (c : ascii).

(** The text up to the first closing bracket, and what follows it. *)
Fixpoint until_rbracket (s : string) : option (string * string) :=
  match s with
  | "" => None
  | String c s' =>
      if Ascii.eqb c "]"%char then Some ("", s')
      else match until_rbracket s' with
           | Some (a, r) => Some (String c a, r)
           | None => None
           end
  end.

(** What follows an opening bracket: complement flag, members, remainder. *)
Definition bracket (s : string) : option (bool * string * string) :=
  let '(neg, s1) :=
    match s with
    | String "!"%char s' => (true, s')
    | _ => (false, s)
    end in
  match s1 with
  | String "]"%char s2 =>
      match until_rbracket s2 with
      | Some (a, r) => Some (neg, String "]"%char a, r)
      | None => None
      end
  | _ =>
      match until_rbracket s1 with
      | Some (a, r) => Some (neg, a, r)
      | None => None
      end
  end.

(** The members of a bracket expression: [x-y] between two characters is a
    range, every other character is itself. *)
Fixpoint class_items (s : string) : list (ascii * ascii) :=
  match s with
  | "" => []
  | String lo (String "-"%char (String hi s')) => (lo, hi) :: class_items s'
  | String c s' => (c, c) :: class_items s'
  end.

Fixpoint translate_fuel (fuel : nat) (pat : string) : list glob_token :=
  match fuel with
  | 0 => []
  | S fuel' =>
      match pat with
      | "" => []
      | String c rest =>
          if Ascii.eqb c "*"%char then GStar :: translate_fuel fuel' rest
          else if Ascii.eqb c "?"%char then GAny :: translate_fuel fuel' rest
          else if Ascii.eqb c "["%char then
            match bracket rest with
            | Some (neg, stuff, rest') =>
                GClass neg (class_items stuff) :: translate_fuel fuel' rest'
            | None => GLit c :: translate_fuel fuel' rest
            end
          else GLit c :: translate_fuel fuel' rest
      end
  end.

Definition translate (pat : string) : list glob_token :=
  translate_fuel (String.length pat) pat.

Definition in_range (c : ascii) (r : ascii * ascii) : bool :=
  (nat_of_ascii (fst r) <=? nat_of_ascii c)%nat
  && (nat_of_ascii c <=? nat_of_ascii (snd r))%nat.

Definition in_class (negated : bool) (items : list (ascii * ascii))
    (c : ascii) : bool :=
  xorb negated (existsb (in_range c) items).

Fixpoint match_tokens (ts : list glob_token) (s : string) : bool :=
  match ts with
  | [] => negb (nonempty s)
  | GStar :: ts' =>
      (fix star (s : string) : bool :=
         match_tokens ts' s
         || match s with
            | "" => false
            | String _ s' => star s'
            end) s
  | GAny :: ts' =>
      match s with
      | "" => false
      | String _ s' => match_tokens ts' s'
      end
  | GClass negated items :: ts' =>
      match s with
      | "" => false
      | String c s' => in_class negated items c && match_tokens ts' s'
      end
  | GLit a :: ts' =>
      match s with
      | "" => false
      | String c s' => Ascii.eqb a c && match_tokens ts' s'
      end
  end.

(** [fnmatch(name, pat)] *)
Definition fnmatch (name pat : string) : bool :=
  match_tokens (translate pat) name.

(** ** [textwrap.dedent]

    Lines made of blanks only are emptied, the margin is the longest run of
    leading blanks shared by the lines that have text, and that margin is
    removed from the start of every line that has it. *)

Definition isblank (c : ascii) : bool :=
  Ascii.eqb c " "%char || Ascii.eqb c tab.

Fixpoint all_chars (f : ascii -> bool) (s : string) : bool :=
  match s with
  | "" => true
  | String c s' => f c && all_chars f s'
  end.

Fixpoint leading_blanks (s : string) : string :=
  match s with
  | "" => ""
  | String c s' => if isblank c then String c (leading_blanks s') else ""
  end.

(** [margin[:i]] at the first index where the two differ *)
Fixpoint cut_at_difference (margin indent : string) : string :=
  match margin, indent with
  | String x m', String y i' =>
      if Ascii.eqb x y then String x (cut_at_difference m' i') else ""
  | _, _ => margin
  end.

Definition next_margin (margin : option string) (indent : string)
    : option string :=
  match margin with
  | None => Some indent
  | Some m =>
      if startswith m indent then Some m
      else if startswith indent m then Some indent
      else Some (cut_at_difference m indent)
  end.

Fixpoint drop (n : nat) (s : string) : string :=
  match n, s with
  | S n', String _ s' => drop n' s'
  | _, _ => s
  end.

Definition dedent (text : string) : string :=
  let lines :=
    map (fun l => if all_chars isblank l then "" else l) (split newline text) in
  let indents := map leading_blanks (filter nonempty lines) in
  match fold_left next_margin indents None with
  | Some (String c m as margin) =>
      join nl
        (map (fun l => if startswith margin l
                       then drop (String.length margin) l else l) lines)
  | _ => join nl lines
  end.

(** ** [pathlib] paths, POSIX flavour *)

(** The [parts] of a path; the root part, when there is one, comes first and
    is the only part with a slash in it. *)
Definition PurePath : Type := list string.

Definition is_dot (s : string) : bool := String.eqb s ".".

(** [PurePath(text)]: empty and [.] components are dropped, a leading slash
    is the root, and exactly two leading slashes are a root of their own. *)
Definition Path (text : string) : PurePath :=
  let names :=
    filter (fun w => nonempty w && negb (is_dot w)) (split slash text) in
  if startswith "//" text && negb (startswith "///" text) then "//" :: names
  else if startswith "/" text then "/" :: names
  else names.

(** [p.is_absolute()] *)
Definition is_absolute (p : PurePath) : bool :=
  match p with
  | r :: _ => startswith "/" r
  | [] => false
  end.

Definition path_eqb (p q : PurePath) : bool :=
  if list_eq_dec string_dec p q then true else false.

(** [p.parent]: the root and the empty path are their own parents *)
Definition parent (p : PurePath) : PurePath :=
  match p with
  | [] => []
  | [r] => if is_absolute p then p else []
  | _ => removelast p
  end.

(** [p.parents]: nearest first, down to the root or to the empty path *)
Fixpoint parents_fuel (fuel : nat) (p : PurePath) : list PurePath :=
  match fuel with
  | 0 => []
  | S fuel' => parent p :: parents_fuel fuel' (parent p)
  end.

Definition parents (p : PurePath) : list PurePath :=
  parents_fuel (if is_absolute p then List.length p - 1 else List.length p) p.

(** [p.name]: the last part, the empty string for a root or the empty path *)
Definition path_name (p : PurePath) : string :=
  if is_absolute p
  then match p with
       | _ :: _ :: _ => last p ""
       | _ => ""
       end
  else last p "".

(** [p.suffix] of a name, by the index of its last dot *)
Definition stem (name : string) : string :=
  match rfind_dot name with
  | Some i =>
      if (0 <? i)%nat && (i <? String.length name - 1)%nat
      then take i name else name
  | None => name
  end.

(** [p.with_suffix("")] *)
Definition without_suffix (p : PurePath) : result PurePath :=
  match path_name p with
  | "" => Raise ValueError
  | name => Ok (removelast p ++ [stem name])
  end.

(** [p.relative_to(other)] *)
Fixpoint is_prefix (p q : PurePath) : bool :=
  match p, q with
  | [], _ => true
  | a :: p', b :: q' => String.eqb a b && is_prefix p' q'
  | _ :: _, [] => false
  end.

Definition relative_to (p other : PurePath) : result PurePath :=
  match other with
  | [] => if is_absolute p then Raise ValueError else Ok p
  | _ => if is_prefix other p then Ok (skipn (List.length other) p)
         else Raise ValueError
  end.

(** ** The file system

    A tree of named entries below the root directory, without symbolic
    links.  A file holds its text, or the error that reading it raises (no
    permission, bytes that do not decode).  Relative paths are looked up
    from the root, which stands for the working directory.  A [..]
    component steps to the parent directory, which for the root is the
    root. *)

#[local] Set Warnings "-register-all".

Inductive node : Type :=
| File (text : string)
| Dir (entries : list (string * node))
| Unreadable (e : exn).

Fixpoint find_entry (name : string) (entries : list (string * node))
    : option node :=
  match entries with
  | [] => None
  | (n, x) :: rest => if String.eqb n name then Some x else find_entry name rest
  end.

(** The descent by entry names alone *)
Fixpoint lookup_names (fs : node) (names : list string) : option node :=
  match names with
  | [] => Some fs
  | n :: names' =>
      match fs with
      | Dir entries =>
          match find_entry n entries with
          | Some x => lookup_names x names'
          | None => None
          end
      | _ => None
      end
  end.

(** The walk of the system from the directory [cur], whose ancestors are
    [up], the nearest first: every component is taken from a directory, a
    name to the entry of that name and [..] to the parent.  It gives the
    node reached and its ancestors. *)
Fixpoint walk_names (up : list node) (cur : node) (names : list string)
    : option (list node * node) :=
  match names with
  | [] => Some (up, cur)
  | n :: names' =>
      match cur with
      | Dir entries =>
          if String.eqb n ".." then
            match up with
            | [] => walk_names [] cur names'
            | parent_ :: up' => walk_names up' parent_ names'
            end
          else
            match find_entry n entries with
            | Some x => walk_names (cur :: up) x names'
            | None => None
            end
      | _ => None
      end
  end.

Definition lookup (fs : node) (p : PurePath) : option node :=
  match walk_names [] fs (if is_absolute p then tl p else p) with
  | Some (_, n) => Some n
  | None => None
  end.

(** The names of a path with every [..] and the name before it taken out;
    [stack] holds the names kept so far, the last first. *)
Fixpoint normalise (stack names : list string) : list string :=
  match names with
  | [] => stack
  | n :: names' =>
      if String.eqb n ".." then normalise (tl stack) names'
      else normalise (n :: stack) names'
  end.

(** [p.resolve()]: absolute, from the root [/], without [..] *)
Definition resolve (p : PurePath) : PurePath :=
  "/" :: rev (normalise [] (if is_absolute p then tl p else p)).

(** [p.exists()], [p.is_dir()], [p.is_file()], [p.read_text()] *)
Definition path_exists (fs : node) (p : PurePath) : bool :=
  match lookup fs p with
  | Some _ => true
  | None => false
  end.

Definition is_dir (fs : node) (p : PurePath) : bool :=
  match lookup fs p with
  | Some (Dir _) => true
  | _ => false
  end.

Definition is_file (fs : node) (p : PurePath) : bool :=
  match lookup fs p with
  | Some (File _) => true
  | Some (Unreadable _) => true
  | _ => false
  end.

Definition read_text (fs : node) (p : PurePath) : result string :=
  match lookup fs p with
  | Some (File text) => Ok text
  | Some (Unreadable e) => Raise e
  | _ => Raise OSError
  end.

(** [d.glob("**/*.py")]: directory by directory, the directory itself before
    its subdirectories, the entries of a directory in listing order. *)
Fixpoint glob_py (n : node) (here : PurePath) : list PurePath :=
  match n with
  | File _ | Unreadable _ => []
  | Dir entries =>
      map (fun e => here ++ [fst e])
        (filter (fun e => fnmatch (fst e) "*.py") entries)
      ++ (fix below (es : list (string * node)) : list PurePath :=
            match es with
            | [] => []
            | (name, child) :: es' =>
                glob_py child (here ++ [name]) ++ below es'
            end) entries
  end.

Definition glob (fs : node) (d : PurePath) : list PurePath :=
  match lookup fs d with
  | Some n => glob_py n d
  | None => []
  end.

(** ** [RelPathPattern] *)

Record RelPathPattern : Type := {
  pattern : string;
  terms : list string;
  anchored : bool;
  negate : bool;
  dir_only : bool
}.

(** [RelPathPattern.__init__]: the attributes of the new object, or the
    [ValueError] raised when no term is left. *)
Definition RelPathPattern_init (text : string) : result RelPathPattern :=
  let '(negate_, p1) :=
    if startswith "!" text then (true, drop 1 text)
    else if startswith "\!" text then (false, drop 1 text)
    else (false, text) in
  let '(dir_only_, p2) :=
    if endswith slash p1 then (true, rstrip (Ascii.eqb slash) p1)
    else (false, p1) in
  let anchored_ := contains slash p2 in
  match filter nonempty (split slash p2) with
  | [] => Raise ValueError
  | terms_ =>
      Ok {| pattern := text; terms := terms_; anchored := anchored_;
            negate := negate_; dir_only := dir_only_ |}
  end.

(** [RelPathPattern.of]: a pattern is returned as it is, a [str] is compiled. *)
Definition RelPathPattern_of (value : string + RelPathPattern)
    : result RelPathPattern :=
  match value with
  | inr p => Ok p
  | inl text => RelPathPattern_init text
  end.

(** [RelPathPattern._is_match], on the terms from [term_index] on and the
    parts from [part_index] on.  The tests come in the order of the source:
    no term left, no part left, a [**] term, a matching part, anchored, and
    at last the next part with the same term. *)
Fixpoint _is_match_from (fs : node) (self : RelPathPattern)
    (rel_path : PurePath) (rel_to : option PurePath)
    (terms_left parts_left : list string) (anchored_ : bool)
    (part_index : nat) {struct terms_left} : bool :=
  match terms_left with
  | [] =>
      match rel_to with
      | Some base =>
          if dir_only self then is_dir fs (base ++ firstn part_index rel_path)
          else true
      | None => true
      end
  | file_pattern :: terms' =>
      (fix scan (parts_left : list string) (anchored_ : bool)
           (part_index : nat) {struct parts_left} : bool :=
         match parts_left with
         | [] => false
         | part :: parts' =>
             if String.eqb file_pattern "**" then
               _is_match_from fs self rel_path rel_to terms' parts_left
                 false part_index
             else if fnmatch part file_pattern then
               _is_match_from fs self rel_path rel_to terms' parts'
                 true (S part_index)
             else if anchored_ then false
             else scan parts' false (S part_index)
         end) parts_left anchored_ part_index
  end.

Definition _is_match (fs : node) (self : RelPathPattern) (rel_path : PurePath)
    (anchored_ : bool) (rel_to : option PurePath)
    (term_index part_index : nat) : bool :=
  _is_match_from fs self rel_path rel_to
    (skipn term_index (terms self)) (skipn part_index rel_path)
    anchored_ part_index.

(** The same walk written with the two indices of the source, one call of
    the source for each unit of [fuel]. *)
Fixpoint _is_match_steps (fuel : nat) (fs : node) (self : RelPathPattern)
    (rel_path : PurePath) (anchored_ : bool) (rel_to : option PurePath)
    (term_index part_index : nat) : option bool :=
  match fuel with
  | 0 => None
  | S fuel' =>
      if (List.length (terms self) <=? term_index)%nat then
        match rel_to with
        | Some base =>
            if dir_only self
            then Some (is_dir fs (base ++ firstn part_index rel_path))
            else Some true
        | None => Some true
        end
      else if (List.length rel_path <=? part_index)%nat then Some false
      else
        let file_pattern := nth term_index (terms self) "" in
        if String.eqb file_pattern "**" then
          _is_match_steps fuel' fs self rel_path false rel_to
            (term_index + 1) part_index
        else if fnmatch (nth part_index rel_path "") file_pattern then
          _is_match_steps fuel' fs self rel_path true rel_to
            (term_index + 1) (part_index + 1)
        else if anchored_ then Some false
        else
          _is_match_steps fuel' fs self rel_path false rel_to
            term_index (part_index + 1)
  end.

(** [RelPathPattern.is_match] *)
Definition is_match (fs : node) (self : RelPathPattern) (rel_path : PurePath)
    (rel_to : option PurePath) : result bool :=
  if is_absolute rel_path then Raise ValueError
  else
    let result_ := _is_match fs self rel_path (anchored self) rel_to 0 0 in
    Ok (if negate self then negb result_ else result_).

(** ** [FoundModule] *)

Record FoundModule : Type := {
  path : PurePath;
  rel_path : PurePath;
  search_dir : string
}.

(** [FoundModule.name] *)
Definition name (m : FoundModule) : result string :=
  p <- without_suffix (rel_path m) ;; Ok (join "." p).

Definition is_package_dir (fs : node) (m : FoundModule) : bool :=
  is_dir fs (path m).

Definition is_module_file (fs : node) (m : FoundModule) : bool :=
  is_file fs (path m).

(** [FoundModule.is_descendant_of]: [other.path in self.path.parents] *)
Definition is_descendant_of (self other : FoundModule) : bool :=
  existsb (path_eqb (path other)) (parents (path self)).

Definition FoundModule_eq_dec (a b : FoundModule) : {a = b} + {a <> b}.
Proof.
  decide equality;
    try apply string_dec; apply (list_eq_dec string_dec).
Defined.

(** ** [root_reducer] and [functools.reduce] *)

Fixpoint reduce {A B : Type} (f : A -> B -> result A) (items : list B)
    (initial : A) : result A :=
  match items with
  | [] => Ok initial
  | b :: items' => a <- f initial b ;; reduce f items' a
  end.

Section RootReducer.

Context {T : Type}.
Variable T_eq_dec : forall x y : T, {x = y} + {x <> y}.
Variable is_descendant : T -> T -> bool.

(** [l.remove(x)]: the first element equal to [x] goes, and it is a
    [ValueError] when there is none. *)
Fixpoint list_remove (x : T) (l : list T) : result (list T) :=
  match l with
  | [] => Raise ValueError
  | y :: l' =>
      if T_eq_dec y x then Ok l'
      else l'' <- list_remove x l' ;; Ok (y :: l'')
  end.

(** The first loop of [reducer]: [None] when it returns early, else the
    list [to_rm] it has built. *)
Fixpoint scan_roots (item : T) (roots to_rm : list T) : option (list T) :=
  match roots with
  | [] => Some to_rm
  | root :: rest =>
      if is_descendant item root then None
      else if is_descendant root item
           then scan_roots item rest (to_rm ++ [root])
           else scan_roots item rest to_rm
  end.

(** The second loop of [reducer] *)
Fixpoint remove_each (to_rm roots : list T) : result (list T) :=
  match to_rm with
  | [] => Ok roots
  | root :: rest => roots' <- list_remove root roots ;; remove_each rest roots'
  end.

Definition root_reducer (roots : list T) (item : T) : result (list T) :=
  match scan_roots item roots [] with
  | None => Ok roots
  | Some to_rm => roots' <- remove_each to_rm roots ;; Ok (roots' ++ [item])
  end.

End RootReducer.

(** ** Namespace marker files *)

Definition NAMESPACE_INIT_CONTENTS : list string :=
  [ "__path__ = __import__('pkgutil').extend_path(__path__, __name__)";
    "__import__('pkg_resources').declare_namespace(__name__)";
    dedent
      (nl
       ++ "            try:" ++ nl
       ++ "                __import__('pkg_resources').declare_namespace(__name__)" ++ nl
       ++ "            except ImportError:" ++ nl
       ++ "                __path__ = __import__('pkgutil').extend_path(__path__, __name__)" ++ nl
       ++ "            ") ].

(** [is_namespace_init]: the file is read only when it is an init file. *)
Definition is_namespace_init (fs : node) (p : PurePath) : result bool :=
  if String.eqb (path_name p) "__init__.py" then
    text <- read_text fs p ;;
    Ok (existsb (String.eqb (strip text)) NAMESPACE_INIT_CONTENTS)
  else Ok false.

(** ** [find_module_roots] *)

Definition EXCLUDE_PATTERNS : list string :=
  [ "__pycache__/";
    "/build/"; "/develop-eggs/"; "/dist/"; "/downloads/"; "/eggs/";
    "/.eggs/"; "/lib/"; "/lib64/"; "/parts/"; "/sdist/"; "/var/";
    "/wheels/"; "/pip-wheel-metadata/"; "/share/python-wheels/";
    "/*.egg-info/";
    ".env/"; ".venv/"; "env/"; "venv/"; "ENV/"; "env.bak/"; "venv.bak/";
    ".vscode/"; "/docs/"; "/test/"; "/tests/" ].

(** The loop of the inner function [is_excluded] *)
Fixpoint any_match (fs : node) (search_abs_path : PurePath)
    (exclude_patterns : list RelPathPattern) (rel_path_ : PurePath)
    : result bool :=
  match exclude_patterns with
  | [] => Ok false
  | pattern_ :: rest =>
      hit <- is_match fs pattern_ rel_path_ (Some search_abs_path) ;;
      if hit then Ok true
      else any_match fs search_abs_path rest rel_path_
  end.

Definition is_excluded (fs : node) (search_abs_path : PurePath)
    (exclude_patterns : list RelPathPattern) (path_ : PurePath)
    : result bool :=
  rel_path_ <- relative_to path_ search_abs_path ;;
  any_match fs search_abs_path exclude_patterns rel_path_.

(** The loop over the paths of the glob, with the list built so far *)
Fixpoint collect (fs : node) (search_dir_ : string)
    (search_abs_path : PurePath) (exclude_patterns : list RelPathPattern)
    (paths : list PurePath) (found_modules : list FoundModule)
    : result (list FoundModule) :=
  match paths with
  | [] => Ok found_modules
  | path_ :: rest =>
      let continue :=
        collect fs search_dir_ search_abs_path exclude_patterns rest in
      rel_path_ <- relative_to path_ search_abs_path ;;
      if negb (is_file fs path_) then continue found_modules
      else if path_eqb rel_path_ ["__init__.py"] then continue found_modules
      else if existsb (contains "."%char) (parent rel_path_)
      then continue found_modules
      else
        marker <- is_namespace_init fs path_ ;;
        if marker then continue found_modules
        else
          excluded <- is_excluded fs search_abs_path exclude_patterns path_ ;;
          if excluded then continue found_modules
          else
            let '(path', rel_path') :=
              if String.eqb (path_name path_) "__init__.py"
              then (parent path_, parent rel_path_)
              else (path_, rel_path_) in
            continue
              (found_modules
               ++ [{| path := path'; rel_path := rel_path';
                      search_dir := search_dir_ |}])
  end.

Definition find_module_roots (fs : node) (search_dir_ : string)
    (exclude : list string) : result (list FoundModule) :=
  let search_path := Path search_dir_ in
  if negb (path_exists fs search_path) then Ok []
  else
    let search_abs_path := resolve (Path search_dir_) in
    exclude_patterns <- mapM (fun item => RelPathPattern_of (inl item)) exclude ;;
    if negb (is_dir fs search_abs_path) then Raise AssertionError
    else
      found_modules <-
        collect fs search_dir_ search_abs_path exclude_patterns
          (glob fs search_abs_path) [] ;;
      reduce (root_reducer FoundModule_eq_dec is_descendant_of)
        found_modules [].

(** A slash with text after it: a slash followed, at any distance, by a
    character that is not a slash. *)
Definition inner_slash (text : string) : Prop :=
  exists (a b : string) (c : ascii) (d : string),
    text = (a ++ String slash (b ++ String c d))%string /\ c <> slash.

(** A run of [n] slashes *)
Fixpoint slashes (n : nat) : string :=
  match n with
  | 0 => ""
  | S n' => String slash (slashes n')
  end.

(** [RelPathPattern(pattern).is_match(Path(path), rel_to=rel_to)], as the
    test suite applies a pattern text to a path text *)
Definition pattern_matches (fs : node) (pattern_ path_ : string)
    (rel_to : option PurePath) : result bool :=
  q <- RelPathPattern_init pattern_ ;; is_match fs q (Path path_) rel_to.

(** The pattern text once the leading [!], or the backslash of a leading
    [\!], is gone *)
Definition pattern_body (text : string) : string :=
  if startswith "!" text then drop 1 text
  else if startswith "\!" text then drop 1 text
  else text.

(** A pattern text applied to a path already parsed *)
Definition compiled_match (fs : node) (pattern_ : string) (p : PurePath)
    (rel_to : option PurePath) : result bool :=
  q <- RelPathPattern_init pattern_ ;; is_match fs q p rel_to.

(** The verdict of a pattern on a relative path: the walk from the first
    term and the first part, inverted for a negated pattern *)
Definition verdict (fs : node) (q : RelPathPattern) (p : PurePath)
    (rel_to : option PurePath) : bool :=
  xorb (negate q) (_is_match fs q p (anchored q) rel_to 0 0).

(** The terms match the first parts, one for one *)
Fixpoint prefix_matches (ts parts : list string) : bool :=
  match ts, parts with
  | [], _ => true
  | t :: ts', x :: parts' => fnmatch x t && prefix_matches ts' parts'
  | _ :: _, [] => false
  end.

(** The descendant test of the test suite: [other in path.parents] *)
Definition is_descentent_of (path_ other : PurePath) : bool :=
  existsb (path_eqb other) (parents path_).

(** No member is a descendant of a member. *)
Definition antichain {T : Type} (is_descendant : T -> T -> bool)
    (l : list T) : Prop :=
  forall x y, In x l -> In y l -> is_descendant x y = false.

(** Every item is a root or the descendant of one. *)
Definition covers {T : Type} (is_descendant : T -> T -> bool)
    (roots items : list T) : Prop :=
  forall x, In x items ->
            exists r, In r roots /\ (r = x \/ is_descendant x r = true).

(** The try/except declaration of a namespace, as an init file holds it *)
Definition hybrid_init_text : string :=
  "try:" ++ nl
  ++ "    __import__('pkg_resources').declare_namespace(__name__)" ++ nl
  ++ "except ImportError:" ++ nl
  ++ "    __path__ = __import__('pkgutil').extend_path(__path__, __name__)".

(** The walk of [_is_match] without its last test: the index of the part
    at which the terms are used up, if they come to be *)
Fixpoint walk_end (ts parts : list string) (a : bool) (i : nat)
    {struct ts} : option nat :=
  match ts with
  | [] => Some i
  | t :: ts' =>
      (fix scan (parts : list string) (a : bool) (i : nat) {struct parts}
           : option nat :=
         match parts with
         | [] => None
         | x :: parts' =>
             if String.eqb t "**" then walk_end ts' parts false i
             else if fnmatch x t then walk_end ts' parts' true (S i)
             else if a then None
             else scan parts' false (S i)
         end) parts a i
  end.

(** One list is the other with some elements left out, the order kept. *)
Inductive subseq {T : Type} : list T -> list T -> Prop :=
| subseq_nil : subseq [] []
| subseq_skip (x : T) (l1 l2 : list T) : subseq l1 l2 -> subseq l1 (x :: l2)
| subseq_keep (x : T) (l1 l2 : list T) :
    subseq l1 l2 -> subseq (x :: l1) (x :: l2).

(** What holds of a module found below [base]: its fields, and the file it
    was found by, a module file or the init file of a package directory *)
Definition module_ok (fs : node) (search_dir_ : string) (base : PurePath)
    (pats : list RelPathPattern) (m : FoundModule) : Prop :=
  search_dir m = search_dir_
  /\ path m = base ++ rel_path m
  /\ rel_path m <> []
  /\ ((is_module_file fs m = true
       /\ path_name (path m) <> "__init__.py"
       /\ existsb (contains "."%char) (parent (rel_path m)) = false
       /\ is_excluded fs base pats (path m) = Ok false)
      \/ (is_package_dir fs m = true
          /\ is_file fs (path m ++ ["__init__.py"]) = true
          /\ existsb (contains "."%char) (rel_path m) = false
          /\ is_namespace_init fs (path m ++ ["__init__.py"]) = Ok false
          /\ is_excluded fs base pats (path m ++ ["__init__.py"])
             = Ok false)).

(** A tree to try discovery on: under [/s] a module file and a package
    with a module and a package in it *)
Definition sample_tree : node :=
  Dir [("s", Dir [("top.py", File "");
                  ("pkg", Dir [("__init__.py", File "");
                               ("m.py", File "");
                               ("sub", Dir [("__init__.py", File "")])])])].

Definition sample_roots : list FoundModule :=
  [{| path := Path "/s/top.py"; rel_path := Path "top.py";
      search_dir := "/s" |};
   {| path := Path "/s/pkg"; rel_path := Path "pkg"; search_dir := "/s" |}].

(** A name as a directory listing gives it: not empty and without a slash *)
Definition valid_name (s : string) : bool :=
  nonempty s && negb (contains slash s).

(** Every entry of the tree has such a name. *)
Fixpoint wf_node (n : node) : bool :=
  match n with
  | File _ | Unreadable _ => true
  | Dir entries =>
      (fix all (es : list (string * node)) : bool :=
         match es with
         | [] => true
         | (name_, child) :: es' => valid_name name_ && wf_node child && all es'
         end) entries
  end.

Fixpoint node_size (n : node) : nat :=
  match n with
  | File _ | Unreadable _ => 1
  | Dir entries =>
      S ((fix sum (es : list (string * node)) : nat :=
            match es with
            | [] => 0
            | (_, child) :: es' => node_size child + sum es'
            end) entries)
  end.

(** The module [m] was made from the candidate file [p] below [base]: from
    the file itself, or from the directory of an init file *)
Definition from_candidate (fs : node) (base p : PurePath) (m : FoundModule)
    : Prop :=
  exists rel,
    p = base ++ rel /\ is_file fs p = true
    /\ ((rel_path m = rel /\ path m = p
         /\ path_name p <> "__init__.py")
        \/ (exists l, rel = l ++ ["__init__.py"] /\ l <> []
                      /\ rel_path m = l /\ path m = base ++ l)).

Definition sample_pkg : FoundModule :=
  {| path := Path "/s/pkg"; rel_path := Path "pkg"; search_dir := "/s" |}.

(** The module the loop of [find_module_roots] makes of a candidate file *)
Definition module_of (search_dir_ : string) (path_ rel_path_ : PurePath)
    : FoundModule :=
  if String.eqb (path_name path_) "__init__.py"
  then {| path := parent path_; rel_path := parent rel_path_;
          search_dir := search_dir_ |}
  else {| path := path_; rel_path := rel_path_; search_dir := search_dir_ |}.

Definition sample_pattern : RelPathPattern :=
  {| pattern := "**/a/b"; terms := ["**"; "a"; "b"]; anchored := true;
     negate := false; dir_only := false |}.



(** In [fs] the names of [stack], the last first, lead to [cur], through
    the directories [up], the nearest first. *)
Fixpoint chain (fs : node) (stack : list string) (up : list node)
    (cur : node) : Prop :=
  match stack, up with
  | [], [] => cur = fs
  | s :: stack', Dir entries :: up' =>
      String.eqb s ".." = false
      /\ find_entry s entries = Some cur
      /\ chain fs stack' up' (Dir entries)
  | _, _ => False
  end.


(** The index of the first part that matches the term [t] *)
Fixpoint find_first (t : string) (parts : list string) : option nat :=
  match parts with
  | [] => None
  | x :: parts' =>
      if fnmatch x t then Some 0
      else match find_first t parts' with
           | Some k => Some (S k)
           | None => None
           end
  end.

(** A directory whose name is a backslash, a [!] and [test] *)
Definition escaped_bang_tree : node :=
  Dir [("s", Dir [("\!test", Dir [("m.py", File "")])])].

(** A directory [t], a directory [s] with a package, and a file [f] *)
Definition spellings_tree : node :=
  Dir [("t", Dir []);
       ("s", Dir [("pkg", Dir [("__init__.py", File "")])]);
       ("f", File "")].

(** * Properties *)

#[local] Arguments Ascii.eqb : simpl never.
#[local] Arguments String.eqb : simpl never.

(** ** Strings *)

Lemma startswith_cons (c : ascii) (s : string) :
  startswith (String c "") s = true -> s = String c (drop 1 s).
Proof.
  destruct s as [|b s']; simpl; [discriminate|].
  rewrite andb_true_r. intros H. apply Ascii.eqb_eq in H. now subst.
Qed.

Lemma split_not_nil (sep : ascii) (s : string) : split sep s <> [].
Proof.
  destruct s as [|c s']; simpl; [discriminate|].
  destruct (Ascii.eqb c sep); [discriminate|].
  destruct (split sep s'); discriminate.
Qed.

Lemma split_terms_nil (sep : ascii) (s : string) :
  filter nonempty (split sep s) = [] <-> all_chars (Ascii.eqb sep) s = true.
Proof.
  induction s as [|c s' IH]; simpl.
  - tauto.
  - rewrite (Ascii.eqb_sym sep c).
    destruct (Ascii.eqb c sep); simpl.
    + exact IH.
    + pose proof (split_not_nil sep s') as Hnil.
      destruct (split sep s'); [contradiction|].
      simpl. split; discriminate.
Qed.

Lemma rstrip_without_suffix (c : ascii) (s : string) :
  endswith c s = false -> rstrip (Ascii.eqb c) s = s.
Proof.
  induction s as [|a s' IH]; [reflexivity|].
  destruct s' as [|b t].
  - simpl. rewrite (Ascii.eqb_sym c a). now intros ->.
  - intros H. change (endswith c (String b t) = false) in H.
    specialize (IH H).
    change (rstrip (Ascii.eqb c) (String a (String b t)))
      with (match rstrip (Ascii.eqb c) (String b t) with
            | "" => if Ascii.eqb c a then "" else String a ""
            | r => String a r
            end).
    now rewrite IH.
Qed.

Lemma rstrip_empty (f : ascii -> bool) (s : string) :
  rstrip f s = "" <-> all_chars f s = true.
Proof.
  induction s as [|a s' IH]; simpl; [tauto|].
  destruct (rstrip f s') eqn:E.
  - destruct (f a); simpl.
    + split; intros _; [now apply IH | reflexivity].
    + split; discriminate.
  - split; [discriminate|].
    intros H. apply andb_true_iff in H as [_ H].
    apply IH in H. discriminate.
Qed.

Lemma all_chars_app (f : ascii -> bool) (s t : string) :
  all_chars f (s ++ t) = all_chars f s && all_chars f t.
Proof.
  induction s as [|a s' IH]; simpl; [reflexivity|].
  now rewrite IH, andb_assoc.
Qed.

Lemma all_chars_rstrip (f : ascii -> bool) (s : string) :
  all_chars f (rstrip f s) = all_chars f s.
Proof.
  destruct (all_chars f s) eqn:E.
  - apply rstrip_empty in E. now rewrite E.
  - induction s as [|a s' IH]; simpl in *; [discriminate|].
    destruct (rstrip f s') eqn:R.
    + destruct (f a) eqn:Fa; simpl; [|now rewrite Fa].
      simpl in E. assert (all_chars f s' = true) by now apply rstrip_empty.
      congruence.
    + change (all_chars f (String a (String a0 s)))
        with (f a && all_chars f (String a0 s)).
      destruct (f a); simpl in *; [now apply IH|reflexivity].
Qed.

Lemma all_slashes (s : string) :
  all_chars (Ascii.eqb slash) s = true <-> exists n, s = slashes n.
Proof.
  split.
  - induction s as [|a s' IH]; simpl.
    + now exists 0.
    + intros H. apply andb_true_iff in H as [Ha Hs].
      apply Ascii.eqb_eq in Ha. destruct (IH Hs) as [n ->].
      exists (S n). now subst.
  - intros [n ->]. induction n; simpl; [reflexivity|assumption].
Qed.

Lemma other_char (s : string) :
  all_chars (Ascii.eqb slash) s = false <->
  exists (b : string) (c : ascii) (d : string),
    s = (b ++ String c d)%string /\ c <> slash.
Proof.
  split.
  - induction s as [|a s' IH]; simpl; [discriminate|].
    destruct (Ascii.eqb slash a) eqn:E; simpl.
    + intros H. destruct (IH H) as (b & c & d & -> & Hc).
      now exists (String a b), c, d.
    + intros _. exists "", a, s'. split; [reflexivity|].
      apply Ascii.eqb_neq in E. congruence.
  - intros (b & c & d & -> & Hc).
    rewrite all_chars_app. simpl.
    assert (Ascii.eqb slash c = false) as ->
      by (apply Ascii.eqb_neq; congruence).
    now rewrite andb_false_r.
Qed.

(** Stripping the trailing slashes leaves a slash exactly when some slash
    had text after it. *)
Lemma contains_rstrip (s : string) :
  contains slash (rstrip (Ascii.eqb slash) s) = true <->
  exists a r : string,
    s = (a ++ String slash r)%string
    /\ all_chars (Ascii.eqb slash) r = false.
Proof.
  induction s as [|x s' IH].
  - simpl. split; [discriminate|].
    intros (a & r & H & _). destruct a; discriminate.
  - change (rstrip (Ascii.eqb slash) (String x s'))
      with (match rstrip (Ascii.eqb slash) s' with
            | "" => if Ascii.eqb slash x then "" else String x ""
            | r => String x r
            end).
    destruct (rstrip (Ascii.eqb slash) s') as [|y t] eqn:R.
    + assert (all_chars (Ascii.eqb slash) s' = true) as Hall
        by now apply rstrip_empty.
      split.
      * destruct (Ascii.eqb slash x) eqn:E; simpl; [discriminate|].
        rewrite Ascii.eqb_sym, E. discriminate.
      * intros (a & r & H & Hr). exfalso.
        destruct a as [|a0 a']; simpl in H; injection H as _ H; subst s'.
        -- congruence.
        -- rewrite all_chars_app in Hall. simpl in Hall.
           rewrite Hr in Hall. rewrite !andb_false_r in Hall. discriminate.
    + assert (all_chars (Ascii.eqb slash) s' = false) as Hall.
      { rewrite <- all_chars_rstrip, R.
        destruct (all_chars (Ascii.eqb slash) (String y t)) eqn:E;
          [|reflexivity].
        apply rstrip_empty in E. rewrite <- R in E.
        assert (rstrip (Ascii.eqb slash) s' = "") as R'.
        { apply rstrip_empty. rewrite <- all_chars_rstrip.
          now apply rstrip_empty. }
        congruence. }
      change (contains slash (String x (String y t)))
        with (Ascii.eqb x slash || contains slash (String y t)).
      destruct (Ascii.eqb x slash) eqn:E; simpl.
      * apply Ascii.eqb_eq in E. subst x. split; [|reflexivity].
        intros _. now exists "", s'.
      * rewrite IH. split.
        -- intros (a & r & -> & Hr). now exists (String x a), r.
        -- intros (a & r & H & Hr).
           destruct a as [|a0 a']; simpl in H; injection H as H1 H2.
           ++ subst x. now rewrite Ascii.eqb_refl in E.
           ++ now exists a', r.
Qed.

Lemma inner_slash_spec (s : string) :
  inner_slash s <->
  exists a r : string,
    s = (a ++ String slash r)%string
    /\ all_chars (Ascii.eqb slash) r = false.
Proof.
  unfold inner_slash. split.
  - intros (a & b & c & d & -> & Hc). exists a, (b ++ String c d)%string.
    split; [reflexivity|]. apply other_char. now exists b, c, d.
  - intros (a & r & -> & Hr). apply other_char in Hr as (b & c & d & -> & Hc).
    now exists a, b, c, d.
Qed.

(** A first character that is not a slash has no part in [inner_slash]. *)
Lemma inner_slash_cons (x : ascii) (s : string) :
  x <> slash -> (inner_slash (String x s) <-> inner_slash s).
Proof.
  intros Hx. unfold inner_slash. split.
  - intros (a & b & c & d & H & Hc).
    destruct a as [|a0 a']; simpl in H; injection H as H1 H2.
    + congruence.
    + now exists a', b, c, d.
  - intros (a & b & c & d & -> & Hc). now exists (String x a), b, c, d.
Qed.

(** ** Compiling a pattern *)

(** [RelPathPattern.__init__] in one piece: stripping the trailing slashes
    is what happens to the text whether or not it ends in one. *)
Lemma RelPathPattern_init_eq (text : string) :
  RelPathPattern_init text =
  let p2 := rstrip (Ascii.eqb slash) (pattern_body text) in
  match filter nonempty (split slash p2) with
  | [] => Raise ValueError
  | terms_ =>
      Ok {| pattern := text; terms := terms_;
            anchored := contains slash p2;
            negate := startswith "!" text;
            dir_only := endswith slash (pattern_body text) |}
  end.
Proof.
  unfold RelPathPattern_init, pattern_body.
  destruct (startswith "!" text);
    [|destruct (startswith "\!" text)];
    match goal with
    | |- context [endswith slash ?b] =>
        destruct (endswith slash b) eqn:E;
        [reflexivity | now rewrite (rstrip_without_suffix _ _ E)]
    end.
Qed.

Lemma pattern_body_cases (text : string) :
  pattern_body text = text
  \/ exists x, x <> slash /\ text = String x (pattern_body text).
Proof.
  unfold pattern_body.
  destruct (startswith "!" text) eqn:B.
  - right. exists "!"%char. split; [discriminate|].
    now apply startswith_cons.
  - destruct (startswith "\!" text) eqn:E; [|now left].
    right. exists "\"%char. split; [discriminate|].
    destruct text as [|c t]; [discriminate|].
    simpl in E. apply andb_true_iff in E as [E _].
    apply Ascii.eqb_eq in E. now subst.
Qed.

Lemma inner_slash_body (text : string) :
  inner_slash (pattern_body text) <-> inner_slash text.
Proof.
  destruct (pattern_body_cases text) as [-> | (x & Hx & H)]; [tauto|].
  rewrite H at 2. symmetry. now apply inner_slash_cons.
Qed.

Lemma init_raises (text : string) :
  RelPathPattern_init text = Raise ValueError <->
  all_chars (Ascii.eqb slash) (pattern_body text) = true.
Proof.
  rewrite RelPathPattern_init_eq. cbv zeta.
  rewrite <- (all_chars_rstrip _ (pattern_body text)), <- split_terms_nil.
  destruct (filter nonempty _); split; congruence.
Qed.

Lemma init_total (text : string) :
  RelPathPattern_init text = Raise ValueError
  \/ exists q, RelPathPattern_init text = Ok q.
Proof.
  rewrite RelPathPattern_init_eq. cbv zeta.
  destruct (filter nonempty _); [now left | right; eauto].
Qed.

(** C3, as the code has it.  A pattern compiles with [anchored] set exactly
    when its text has a slash with text after it, that is, a slash that is
    still there once the trailing slashes are gone: the test is made after
    the stripping, and such a text always compiles. *)
Theorem anchored_iff_inner_slash (text : string) :
  inner_slash text <->
  exists q, RelPathPattern_init text = Ok q /\ anchored q = true.
Proof.
  rewrite <- inner_slash_body, inner_slash_spec, <- contains_rstrip.
  rewrite RelPathPattern_init_eq. cbv zeta. split.
  - intros H.
    destruct (filter nonempty _) eqn:F; [|eexists; split; [reflexivity|exact H]].
    exfalso. apply split_terms_nil in F. rewrite all_chars_rstrip in F.
    apply contains_rstrip in H as (a & r & Hb & Hr).
    rewrite Hb, all_chars_app in F. simpl in F.
    rewrite Hr, !andb_false_r in F. discriminate.
  - intros (q & H & Hq).
    destruct (filter nonempty _); [discriminate|].
    injection H as <-. exact Hq.
Qed.

(** C3 as stated fails: the text [build/] has a slash in it and compiles
    with [anchored] unset. *)
Lemma anchored_unset_for_trailing_slash :
  contains slash "build/" = true
  /\ RelPathPattern_init "build/"
     = Ok {| pattern := "build/"; terms := ["build"]; anchored := false;
             negate := false; dir_only := true |}.
Proof. split; reflexivity. Qed.

Lemma anchored_examples :
  (exists q, RelPathPattern_init "/build/" = Ok q /\ anchored q = true)
  /\ (exists q, RelPathPattern_init "test/a" = Ok q /\ anchored q = true)
  /\ (exists q, RelPathPattern_init "__pycache__/" = Ok q
                /\ anchored q = false /\ dir_only q = true).
Proof. repeat split; eexists; repeat split; reflexivity. Qed.

(** ** Errors of the matcher *)

Lemma split_parts_no_sep (sep : ascii) (s w : string) :
  In w (split sep s) -> contains sep w = false.
Proof.
  revert w. induction s as [|c s' IH]; simpl; intros w Hw.
  - destruct Hw as [<- | []]. reflexivity.
  - destruct (Ascii.eqb c sep) eqn:E.
    + destruct Hw as [<- | Hw]; [reflexivity | now apply IH].
    + pose proof (split_not_nil sep s') as Hnil.
      destruct (split sep s') as [|v vs]; [contradiction|].
      destruct Hw as [<- | Hw].
      * simpl. rewrite E. apply IH. now left.
      * apply IH. now right.
Qed.

(** A parsed path is absolute exactly when its text starts with a slash. *)
Lemma is_absolute_Path (text : string) :
  is_absolute (Path text) = startswith "/" text.
Proof.
  unfold Path.
  destruct (startswith "//" text && negb (startswith "///" text)) eqn:E.
  - apply andb_true_iff in E as [E _].
    destruct text as [|c t]; [discriminate|].
    simpl in *. apply andb_true_iff in E as [-> _]. reflexivity.
  - destruct (startswith "/" text) eqn:B; [reflexivity|].
    destruct (filter _ (split slash text)) as [|w ws] eqn:F; [reflexivity|].
    assert (In w (split slash text)) as Hw.
    { eapply proj1. apply filter_In. rewrite F. now left. }
    apply split_parts_no_sep in Hw.
    destruct w as [|c w']; [reflexivity|].
    simpl in *. apply orb_false_iff in Hw as [Hc _].
    rewrite Ascii.eqb_sym in Hc. unfold slash in Hc. now rewrite Hc.
Qed.

(** C7.  Compiling a pattern raises [ValueError], and nothing else, exactly
    for the texts that are a run of slashes with at most a [!] in front:
    once the negation mark is read they have no term.  Matching raises
    [ValueError] exactly for an absolute path, which for a path given as
    text is one starting with a slash, and answers for any other path. *)
Theorem matcher_errors :
  (forall text,
      RelPathPattern_init text = Raise ValueError <->
      exists n, text = slashes n \/ text = String "!" (slashes n))
  /\ (forall text,
      RelPathPattern_init text = Raise ValueError
      \/ exists q, RelPathPattern_init text = Ok q)
  /\ (RelPathPattern_init "" = Raise ValueError
      /\ RelPathPattern_init "/" = Raise ValueError
      /\ RelPathPattern_init "///" = Raise ValueError
      /\ RelPathPattern_init "!" = Raise ValueError)
  /\ (forall fs q p rel_to,
      (is_match fs q p rel_to = Raise ValueError <-> is_absolute p = true)
      /\ (is_absolute p = false -> exists b, is_match fs q p rel_to = Ok b))
  /\ (forall fs q text rel_to,
      is_match fs q (Path text) rel_to = Raise ValueError <->
      startswith "/" text = true).
Proof.
  split; [|split; [exact init_total|split; [repeat split; reflexivity|split]]].
  - intros text. rewrite init_raises, all_slashes.
    unfold pattern_body. destruct (startswith "!" text) eqn:B.
    + apply startswith_cons in B. split.
      * intros [n Hn]. exists n. right. now rewrite B, Hn.
      * intros [n [H | H]].
        -- rewrite H in B. destruct n; discriminate.
        -- exists n. rewrite H. reflexivity.
    + destruct (startswith "\!" text) eqn:E.
      * destruct text as [|c [|d t]]; simpl in E;
          try discriminate;
          try (rewrite andb_false_r in E; discriminate).
        apply andb_true_iff in E as [Ec E].
        apply andb_true_iff in E as [Ed _].
        apply Ascii.eqb_eq in Ec, Ed. subst c d. simpl. split.
        -- intros [[|n] Hn]; discriminate.
        -- intros [[|n] [H | H]]; discriminate.
      * split.
        -- intros [n Hn]. exists n. now left.
        -- intros [n [H | H]]; [now exists n|].
           subst text. discriminate.
  - intros fs q p rel_to. unfold is_match.
    destruct (is_absolute p); (split; [split|]);
      try tauto; try discriminate.
    intros _. eauto.
  - intros fs q text rel_to. unfold is_match. rewrite is_absolute_Path.
    destruct (startswith "/" text); split; try tauto; discriminate.
Qed.

(** ** Matching *)

Lemma is_match_relative (fs : node) (q : RelPathPattern) (p : PurePath)
    (rel_to : option PurePath) :
  is_absolute p = false -> is_match fs q p rel_to = Ok (verdict fs q p rel_to).
Proof.
  intros H. unfold is_match, verdict. rewrite H.
  now destruct (negate q), (_is_match fs q p (anchored q) rel_to 0 0).
Qed.

(** The matches of the test suite *)
Lemma is_match_examples (fs : node) (rel_to : option PurePath) :
  pattern_matches fs "test" "test/a/b" rel_to = Ok true
  /\ pattern_matches fs "test" "a/test/b" rel_to = Ok true
  /\ pattern_matches fs "test" "a/b/test" rel_to = Ok true
  /\ pattern_matches fs "/test" "test/a/b" rel_to = Ok true
  /\ pattern_matches fs "/test" "a/test/b" rel_to = Ok false
  /\ pattern_matches fs "test/a" "test/a/b" rel_to = Ok true
  /\ pattern_matches fs "test/a" "b/test/a" rel_to = Ok false
  /\ pattern_matches fs "**/test/b" "a/test/b/c" rel_to = Ok true
  /\ pattern_matches fs "test/**/c" "test/a/b/c/d" rel_to = Ok true
  /\ pattern_matches fs "test/**/c" "test/c" rel_to = Ok true
  /\ pattern_matches fs "test/**/c" "a/test/c" rel_to = Ok false.
Proof. destruct rel_to; repeat split; reflexivity. Qed.

(** C9.  After [**] the walk takes the first part that matches the next term
    and goes on anchored from there: [**/a/b] does not match [x/a/c/a/b],
    although the parts at the indices 3 and 4 match its last two terms, and
    although it matches the path [c/a/b] made of the parts from 2 on. *)
Theorem double_star_commits_to_first_match (fs : node)
    (rel_to : option PurePath) :
  pattern_matches fs "**/a/b" "x/a/c/a/b" rel_to = Ok false
  /\ (exists q, RelPathPattern_init "**/a/b" = Ok q
                /\ terms q = ["**"; "a"; "b"]
                /\ fnmatch (nth 3 (Path "x/a/c/a/b") "") (nth 1 (terms q) "")
                   = true
                /\ fnmatch (nth 4 (Path "x/a/c/a/b") "") (nth 2 (terms q) "")
                   = true)
  /\ skipn 2 (Path "x/a/c/a/b") = Path "c/a/b"
  /\ pattern_matches fs "**/a/b" "c/a/b" rel_to = Ok true.
Proof.
  destruct rel_to; repeat split; try reflexivity;
    eexists; repeat split; reflexivity.
Qed.

Section Walk.

Variable fs : node.
Variable self : RelPathPattern.
Variable rel_path_ : PurePath.
Variable rel_to : option PurePath.

Let walk := _is_match_from fs self rel_path_ rel_to.

Lemma walk_no_part (t : string) (ts : list string) (a : bool) (i : nat) :
  walk (t :: ts) [] a i = false.
Proof. reflexivity. Qed.

Lemma walk_step (t : string) (ts : list string) (x : string)
    (parts : list string) (a : bool) (i : nat) :
  walk (t :: ts) (x :: parts) a i =
  if String.eqb t "**" then walk ts (x :: parts) false i
  else if fnmatch x t then walk ts parts true (S i)
  else if a then false
  else walk (t :: ts) parts false (S i).
Proof. reflexivity. Qed.

(** Unanchored, a term is looked for part after part, and the walk goes on
    anchored from the first part that matches it: the parts after that
    one are never tried for this term. *)
Lemma walk_commits_to_first_match (t : string) (ts : list string)
    (before : list string) (x : string) (after : list string) (i : nat) :
  String.eqb t "**" = false ->
  forallb (fun y => negb (fnmatch y t)) before = true ->
  fnmatch x t = true ->
  walk (t :: ts) (before ++ x :: after) false i =
  walk ts after true (i + List.length before + 1).
Proof.
  intros Ht Hb Hx. revert i.
  induction before as [|y before' IH]; intros i.
  - cbn [app List.length]. rewrite walk_step, Ht, Hx. f_equal. lia.
  - cbn [forallb] in Hb. apply andb_true_iff in Hb as [Hy Hb].
    apply negb_true_iff in Hy.
    cbn [app List.length]. rewrite walk_step, Ht, Hy, (IH Hb).
    f_equal. lia.
Qed.

(** One term and no anchor: some part matches. *)
Lemma walk_single_term (t : string) (parts : list string) (i : nat) :
  String.eqb t "**" = false -> dir_only self = false ->
  walk [t] parts false i = existsb (fun x => fnmatch x t) parts.
Proof.
  intros Ht Hd. revert i.
  induction parts as [|x parts' IH]; intros i; [reflexivity|].
  rewrite walk_step, Ht. cbn [existsb].
  destruct (fnmatch x t); [|apply IH].
  unfold walk. cbn. rewrite Hd. now destruct rel_to.
Qed.

(** Anchored and without [**]: the terms match the first parts. *)
Lemma walk_anchored (ts parts : list string) (i : nat) :
  forallb (fun t => negb (String.eqb t "**")) ts = true ->
  dir_only self = false ->
  walk ts parts true i = prefix_matches ts parts.
Proof.
  intros Hs Hd. revert parts i.
  induction ts as [|t ts' IH]; intros parts i.
  - unfold walk. cbn. rewrite Hd. now destruct rel_to, parts.
  - cbn [forallb] in Hs. apply andb_true_iff in Hs as [Ht Hs].
    apply negb_true_iff in Ht.
    destruct parts as [|x parts']; [reflexivity|].
    rewrite walk_step, Ht. cbn [prefix_matches].
    destruct (fnmatch x t); [now apply IH | reflexivity].
Qed.

End Walk.

Lemma skipn_nth {A : Type} (d : A) (l : list A) (n : nat) :
  n < List.length l -> skipn n l = nth n l d :: skipn (S n) l.
Proof.
  revert n. induction l as [|a l' IH]; intros n H; simpl in H; [lia|].
  destruct n; [reflexivity|]. cbn [skipn nth]. apply IH. lia.
Qed.

(** The walk written with the two indices of the source gives the same
    answer, and gives one as soon as the fuel covers the terms and parts
    that are left: the recursion of the source ends. *)
Lemma _is_match_steps_agree (fs : node) (self : RelPathPattern)
    (rel_path_ : PurePath) (rel_to : option PurePath) (fuel : nat) :
  forall (a : bool) (ti pi : nat),
    (List.length (terms self) - ti) + (List.length rel_path_ - pi) < fuel ->
    _is_match_steps fuel fs self rel_path_ a rel_to ti pi
    = Some (_is_match fs self rel_path_ a rel_to ti pi).
Proof.
  induction fuel as [|fuel' IH]; intros a ti pi H; [lia|].
  cbn [_is_match_steps]. unfold _is_match.
  destruct (Nat.leb_spec (List.length (terms self)) ti) as [Ht | Ht].
  - rewrite (skipn_all2 _ Ht). cbn.
    now destruct rel_to, (dir_only self).
  - rewrite (skipn_nth "" _ _ Ht).
    destruct (Nat.leb_spec (List.length rel_path_) pi) as [Hp | Hp].
    + now rewrite (skipn_all2 _ Hp).
    + rewrite (skipn_nth "" rel_path_ _ Hp), walk_step.
      rewrite <- (skipn_nth "" rel_path_ _ Hp).
      replace (ti + 1) with (S ti) by lia.
      replace (pi + 1) with (S pi) by lia.
      destruct (String.eqb _ "**").
      * rewrite IH by lia. reflexivity.
      * destruct (fnmatch _ _).
        -- rewrite IH by lia. reflexivity.
        -- destruct a; [reflexivity|].
           rewrite IH by lia. unfold _is_match.
           now rewrite (skipn_nth "" _ _ Ht).
Qed.

(** ** Negation *)

(** The walk reads the pattern object for [dir_only] alone; the terms are
    handed to it. *)
Lemma walk_dir_only (fs : node) (s1 s2 : RelPathPattern) (rp : PurePath)
    (rel_to : option PurePath) (ts parts : list string) (a : bool) (i : nat) :
  dir_only s1 = dir_only s2 ->
  _is_match_from fs s1 rp rel_to ts parts a i
  = _is_match_from fs s2 rp rel_to ts parts a i.
Proof.
  intros Hd. revert parts a i.
  induction ts as [|t ts' IH]; intros parts a i.
  - cbn. now rewrite Hd.
  - revert a i. induction parts as [|x parts' IHp]; intros a i;
      [reflexivity|].
    rewrite !walk_step, !IH, IHp. reflexivity.
Qed.

Lemma verdict_fields (fs : node) (q q' : RelPathPattern) (p : PurePath)
    (rel_to : option PurePath) :
  terms q' = terms q -> anchored q' = anchored q ->
  dir_only q' = dir_only q ->
  verdict fs q' p rel_to
  = xorb (negate q') (xorb (negate q) (verdict fs q p rel_to)).
Proof.
  intros Ht Ha Hd. unfold verdict, _is_match.
  rewrite Ht, Ha, (walk_dir_only fs q' q _ _ _ _ _ _ Hd).
  now destruct (negate q), (negate q'), (_is_match_from _ _ _ _ _ _ _ _).
Qed.

(** Putting [!] in front of a text that starts with neither [!] nor [\!]
    changes the [negate] flag and the recorded text, nothing else. *)
Lemma init_negated (P : string) :
  startswith "!" P = false -> startswith "\!" P = false ->
  RelPathPattern_init (String "!" P) =
  match RelPathPattern_init P with
  | Ok q =>
      Ok {| pattern := String "!" P; terms := terms q;
            anchored := anchored q; negate := true; dir_only := dir_only q |}
  | Raise e => Raise e
  end
  /\ (forall q, RelPathPattern_init P = Ok q -> negate q = false).
Proof.
  intros B E. rewrite !RelPathPattern_init_eq. cbv zeta.
  assert (pattern_body P = P) as -> by (unfold pattern_body; now rewrite B, E).
  assert (pattern_body (String "!" P) = P) as -> by reflexivity.
  rewrite B.
  destruct (filter nonempty _); split; try reflexivity; try discriminate.
  intros q H. injection H as <-. reflexivity.
Qed.

(** C6 as stated fails: [\!test] does not start with [!], and both it and
    [!\!test] match the path [!test].  After the leading [!] is read the
    backslash is not looked for, and stays in the term. *)
Lemma negation_of_escaped_bang_is_no_negation :
  startswith "!" "\!test" = false
  /\ is_absolute (Path "!test") = false
  /\ pattern_matches (Dir []) "\!test" "!test" None = Ok true
  /\ pattern_matches (Dir []) (String "!" "\!test") "!test" None = Ok true
  /\ (exists q, RelPathPattern_init (String "!" "\!test") = Ok q
                /\ terms q = ["\!test"] /\ negate q = true).
Proof.
  repeat split; try reflexivity. eexists. repeat split; reflexivity.
Qed.

(** C6, as the code has it.  For a text [P] that starts with neither [!] nor
    [\!], the pattern compiled from [!P] answers on every relative path the
    negation of what the pattern compiled from [P] answers, and fails to
    compile exactly when [P] does.  The pattern compiled from [\!R] is never
    negated, always compiles, and its first term starts with the character
    [!], its terms being those of the text [!R] split at the slashes. *)
Theorem negation_inverts_verdict :
  (forall (fs : node) (P : string) (p : PurePath) (rel_to : option PurePath),
      startswith "!" P = false -> startswith "\!" P = false ->
      is_absolute p = false ->
      compiled_match fs (String "!" P) p rel_to
      = (b <- compiled_match fs P p rel_to ;; Ok (negb b)))
  /\ (forall R : string,
      exists q t ts,
        RelPathPattern_init (String "\" (String "!" R)) = Ok q
        /\ negate q = false
        /\ terms q = String "!" t :: ts
        /\ terms q
           = filter nonempty
               (split slash (rstrip (Ascii.eqb slash) (String "!" R))))
  /\ (forall fs rel_to,
      pattern_matches fs "!test" "a/b/c" rel_to = Ok true
      /\ pattern_matches fs "!test" "a/test/b/c" rel_to = Ok false
      /\ pattern_matches fs "\!test" "a/!test/b" rel_to = Ok true
      /\ pattern_matches fs "\!test" "a/test/b" rel_to = Ok false).
Proof.
  split; [|split].
  - intros fs P p rel_to B E Hp. unfold compiled_match.
    destruct (init_negated P B E) as [-> Hneg].
    destruct (RelPathPattern_init P) as [q|e]; [|reflexivity].
    cbn [bind]. rewrite !is_match_relative by assumption. cbn [bind].
    rewrite (verdict_fields fs q) by reflexivity.
    cbn [negate]. rewrite (Hneg q eq_refl).
    now destruct (verdict fs q p rel_to).
  - intros R. rewrite RelPathPattern_init_eq. cbv zeta.
    change (pattern_body (String "\" (String "!" R))) with (String "!" R).
    assert (exists r, rstrip (Ascii.eqb slash) (String "!" R) = String "!" r)
      as [r Hr].
    { cbn [rstrip]. destruct (rstrip (Ascii.eqb slash) R);
        [exists ""; reflexivity | eauto]. }
    rewrite Hr. cbn [split].
    change (Ascii.eqb "!" slash) with false. cbv iota.
    pose proof (split_not_nil slash r) as Hnil.
    destruct (split slash r) as [|w ws]; [contradiction|].
    cbn [filter nonempty]. do 3 eexists. repeat split; reflexivity.
  - intros fs [base|]; repeat split; reflexivity.
Qed.

(** The negation law at the pattern [test] and the path [a/test/b/c] *)
Lemma negation_inverts_verdict_witness :
  (startswith "!" "test" = false /\ startswith "\!" "test" = false
   /\ is_absolute (Path "a/test/b/c") = false)
  /\ compiled_match (Dir []) "!test" (Path "a/test/b/c") None
     = (b <- compiled_match (Dir []) "test" (Path "a/test/b/c") None ;;
        Ok (negb b)).
Proof.
  split; [repeat split; reflexivity|].
  apply (proj1 negation_inverts_verdict (Dir []) "test" (Path "a/test/b/c"));
    reflexivity.
Defined.

(** ** The reduction to roots *)

Section RootReducerFacts.

Context {T : Type}.
Variable T_eq_dec : forall x y : T, {x = y} + {x <> y}.
Variable is_descendant : T -> T -> bool.

Let reducer := root_reducer T_eq_dec is_descendant.

Lemma scan_roots_spec (item : T) (roots to_rm : list T) :
  scan_roots is_descendant item roots to_rm =
  if existsb (is_descendant item) roots then None
  else Some (to_rm ++ filter (fun r => is_descendant r item) roots).
Proof.
  revert to_rm. induction roots as [|r roots' IH]; intros to_rm; simpl.
  - now rewrite app_nil_r.
  - destruct (is_descendant item r); [reflexivity|]. simpl.
    destruct (is_descendant r item); rewrite IH;
      destruct (existsb _ roots'); try reflexivity.
    now rewrite <- app_assoc.
Qed.

(** Removing elements that pass a test goes past a head that fails it. *)
Lemma remove_each_skips (f : T -> bool) (x : T) (to_rm roots : list T) :
  f x = false -> forallb f to_rm = true ->
  remove_each T_eq_dec to_rm (x :: roots) =
  (r <- remove_each T_eq_dec to_rm roots ;; Ok (x :: r)).
Proof.
  intros Hx. revert roots.
  induction to_rm as [|y rest IH]; intros roots Hall; [reflexivity|].
  cbn [forallb] in Hall. apply andb_true_iff in Hall as [Hy Hall].
  cbn [remove_each list_remove].
  destruct (T_eq_dec x y) as [-> | _]; [congruence|].
  destruct (list_remove T_eq_dec y roots) as [l|e]; [|reflexivity].
  cbn [bind]. now apply IH.
Qed.

(** The second loop removes what the first one listed, and never meets an
    element that is gone already. *)
Lemma remove_each_filter (f : T -> bool) (roots : list T) :
  remove_each T_eq_dec (filter f roots) roots
  = Ok (filter (fun r => negb (f r)) roots).
Proof.
  induction roots as [|x roots' IH]; [reflexivity|].
  cbn [filter]. destruct (f x) eqn:Fx; cbn [negb].
  - cbn [remove_each list_remove].
    destruct (T_eq_dec x x) as [_ | N]; [|contradiction]. exact IH.
  - rewrite (remove_each_skips f) by
      (try assumption; apply forallb_forall; intros y Hy;
       now apply filter_In in Hy).
    now rewrite IH.
Qed.

(** [reducer] never raises: it keeps the roots when the item descends from
    one, and otherwise drops the descendants of the item and appends it. *)
Lemma root_reducer_spec (roots : list T) (item : T) :
  reducer roots item =
  Ok (if existsb (is_descendant item) roots then roots
      else filter (fun r => negb (is_descendant r item)) roots ++ [item]).
Proof.
  unfold reducer, root_reducer. rewrite scan_roots_spec.
  destruct (existsb _ roots); [reflexivity|].
  cbn [app]. now rewrite remove_each_filter.
Qed.

Hypothesis irreflexive : forall x, is_descendant x x = false.

Lemma reducer_antichain (roots roots' : list T) (item : T) :
  antichain is_descendant roots -> reducer roots item = Ok roots' ->
  antichain is_descendant roots'.
Proof.
  intros Ha H. rewrite root_reducer_spec in H. injection H as <-.
  destruct (existsb (is_descendant item) roots) eqn:E; [exact Ha|].
  assert (forall r, In r roots -> is_descendant item r = false) as Hitem.
  { intros r Hr. destruct (is_descendant item r) eqn:D; [|reflexivity].
    assert (existsb (is_descendant item) roots = true)
      by (apply existsb_exists; eauto).
    congruence. }
  intros x y Hx Hy.
  apply in_app_or in Hx as [Hx | [<- | []]];
    apply in_app_or in Hy as [Hy | [<- | []]].
  - apply filter_In in Hx as [Hx _]. apply filter_In in Hy as [Hy _].
    now apply Ha.
  - apply filter_In in Hx as [_ Hx]. now apply negb_true_iff in Hx.
  - apply filter_In in Hy as [Hy _]. now apply Hitem.
  - apply irreflexive.
Qed.

Hypothesis transitive :
  forall x y z, is_descendant x y = true -> is_descendant y z = true ->
                is_descendant x z = true.

Lemma reducer_covers (roots roots' items : list T) (item : T) :
  covers is_descendant roots items -> reducer roots item = Ok roots' ->
  covers is_descendant roots' (items ++ [item]).
Proof.
  intros Hc H. rewrite root_reducer_spec in H. injection H as <-.
  destruct (existsb (is_descendant item) roots) eqn:E.
  - intros x Hx. apply in_app_or in Hx as [Hx | [<- | []]];
      [now apply Hc|].
    apply existsb_exists in E as (r & Hr & D). eauto.
  - intros x Hx. apply in_app_or in Hx as [Hx | [<- | []]].
    + destruct (Hc x Hx) as (r & Hr & Hxr).
      destruct (is_descendant r item) eqn:D.
      * exists item. split; [apply in_or_app; right; now left|].
        right. destruct Hxr as [<- | Hxr]; [exact D|].
        now apply (transitive x r item).
      * exists r. split; [|exact Hxr].
        apply in_or_app. left. apply filter_In. now rewrite D.
    + exists item. split; [apply in_or_app; right; now left | now left].
Qed.

(** The fold over any items, from any antichain that covers the items
    seen so far. *)
Lemma reduce_roots (items seen roots : list T) :
  antichain is_descendant roots -> covers is_descendant roots seen ->
  exists roots',
    reduce reducer items roots = Ok roots'
    /\ antichain is_descendant roots'
    /\ covers is_descendant roots' (seen ++ items).
Proof.
  revert seen roots. induction items as [|item items' IH];
    intros seen roots Ha Hc.
  - exists roots. rewrite app_nil_r. now repeat split.
  - cbn [reduce].
    destruct (reducer roots item) as [roots1|e] eqn:R;
      [|now rewrite root_reducer_spec in R].
    cbn [bind].
    destruct (IH (seen ++ [item]) roots1) as (roots' & H1 & H2 & H3).
    + now apply (reducer_antichain roots _ item).
    + now apply (reducer_covers roots).
    + exists roots'. rewrite <- app_assoc in H3. now repeat split.
Qed.

End RootReducerFacts.

(** C4.  For a descendant test that is a strict partial order, the fold of
    [root_reducer] over any items, from the empty list, ends without an
    error in an antichain: no root is a descendant of a root; and every item
    is one of the roots or a descendant of one.  The two sequences of the
    test suite reduce to [a] and to [a/b, x/y], in that order. *)
Theorem root_reducer_antichain :
  (forall (T : Type) (T_eq_dec : forall x y : T, {x = y} + {x <> y})
          (is_descendant : T -> T -> bool),
      (forall x, is_descendant x x = false) ->
      (forall x y z, is_descendant x y = true -> is_descendant y z = true ->
                     is_descendant x z = true) ->
      forall items : list T,
      exists roots,
        reduce (root_reducer T_eq_dec is_descendant) items [] = Ok roots
        /\ antichain is_descendant roots
        /\ covers is_descendant roots items)
  /\ reduce (root_reducer (list_eq_dec string_dec) is_descentent_of)
        (map Path ["a"; "a/b"; "a/b/c"; "a/b/d"]) []
      = Ok (map Path ["a"])
  /\ reduce (root_reducer (list_eq_dec string_dec) is_descentent_of)
        (map Path ["a/b"; "a/b/c"; "a/b/d/e"; "x/y"; "x/y/z"; "x/y/w"]) []
      = Ok (map Path ["a/b"; "x/y"]).
Proof.
  split; [|split; reflexivity].
  intros T T_eq_dec is_descendant Hirr Htrans items.
  apply (reduce_roots T_eq_dec is_descendant Hirr Htrans items [] []).
  - intros x y [].
  - intros x [].
Qed.

(** The fold on the booleans, [true] a descendant of [false] *)
Lemma root_reducer_antichain_witness :
  ((forall x, andb x (negb x) = false)
   /\ (forall x y z, andb x (negb y) = true -> andb y (negb z) = true ->
                     andb x (negb z) = true))
  /\ exists roots,
       reduce (root_reducer Bool.bool_dec (fun x y => andb x (negb y)))
         [true; false; true] [] = Ok roots
       /\ antichain (fun x y => andb x (negb y)) roots
       /\ covers (fun x y => andb x (negb y)) roots [true; false; true].
Proof.
  assert (forall x, andb x (negb x) = false) as Hirr by now intros [].
  assert (forall x y z, andb x (negb y) = true -> andb y (negb z) = true ->
                        andb x (negb z) = true) as Htrans
    by (intros [] [] []; simpl; congruence).
  split; [now split|].
  exact (proj1 root_reducer_antichain bool Bool.bool_dec
           (fun x y => andb x (negb y)) Hirr Htrans [true; false; true]).
Defined.

(** ** Exclusion *)

Lemma any_match_spec (fs : node) (search_abs_path rel : PurePath)
    (pats : list RelPathPattern) :
  is_absolute rel = false ->
  any_match fs search_abs_path pats rel
  = Ok (existsb (fun q => verdict fs q rel (Some search_abs_path)) pats).
Proof.
  intros Hrel. induction pats as [|q pats' IH]; [reflexivity|].
  cbn [any_match existsb]. rewrite is_match_relative by assumption.
  cbn [bind]. now destruct (verdict fs q rel (Some search_abs_path)).
Qed.

(** C10 as stated fails, at the corner of C6: the text [\!test] does not
    match the path [\!test/m.py], whose directory has a backslash in its
    name, and yet the text [!\!test] in the exclude list does not exclude
    it: the module is returned. *)
Lemma negated_text_keeps_unmatched_candidate :
  startswith "!" (String "!" "\!test") = true
  /\ compiled_match escaped_bang_tree "\!test" (Path "\!test/m.py")
       (Some (Path "/s")) = Ok false
  /\ (exists q',
         RelPathPattern_init (String "!" "\!test") = Ok q'
         /\ is_excluded escaped_bang_tree (Path "/s") [q']
              (Path "/s" ++ Path "\!test/m.py") = Ok false)
  /\ find_module_roots escaped_bang_tree "/s" [String "!" "\!test"]
     = Ok [{| path := Path "/s" ++ Path "\!test/m.py";
              rel_path := Path "\!test/m.py"; search_dir := "/s" |}].
Proof.
  repeat split; try reflexivity. eexists. split; reflexivity.
Qed.

(** C10, as the code has it.  A candidate is excluded exactly when one pattern of the list, taken
    alone, matches its relative path.  So a negated pattern in the list
    excludes every path its terms do not match (for a text [!P], with [P]
    starting with neither [!] nor [\!]: every path the pattern [P] does not
    match), and a pattern added anywhere in the list, negated or not, never
    brings back a path the list excludes. *)
Theorem is_excluded_by_any_pattern (fs : node)
    (search_abs_path path_ rel : PurePath) (pats : list RelPathPattern) :
  relative_to path_ search_abs_path = Ok rel ->
  is_absolute rel = false ->
  is_excluded fs search_abs_path pats path_
  = Ok (existsb (fun q => verdict fs q rel (Some search_abs_path)) pats)
  /\ (is_excluded fs search_abs_path pats path_ = Ok true <->
      exists q, In q pats
                /\ is_match fs q rel (Some search_abs_path) = Ok true)
  /\ (forall q,
      In q pats -> negate q = true ->
      _is_match fs q rel (anchored q) (Some search_abs_path) 0 0 = false ->
      is_excluded fs search_abs_path pats path_ = Ok true)
  /\ (forall P q q',
      startswith "!" P = false -> startswith "\!" P = false ->
      RelPathPattern_init P = Ok q ->
      RelPathPattern_init (String "!" P) = Ok q' ->
      In q' pats ->
      is_match fs q rel (Some search_abs_path) = Ok false ->
      is_excluded fs search_abs_path pats path_ = Ok true)
  /\ (forall l1 l2 q,
      pats = l1 ++ l2 ->
      is_excluded fs search_abs_path pats path_ = Ok true ->
      is_excluded fs search_abs_path (l1 ++ q :: l2) path_ = Ok true).
Proof.
  intros Hrel Habs.
  assert (forall l, is_excluded fs search_abs_path l path_
                    = Ok (existsb
                            (fun q => verdict fs q rel (Some search_abs_path))
                            l)) as Hspec.
  { intros l. unfold is_excluded. rewrite Hrel. cbn [bind].
    now apply any_match_spec. }
  assert (forall q, In q pats ->
                    verdict fs q rel (Some search_abs_path) = true ->
                    is_excluded fs search_abs_path pats path_ = Ok true)
    as Hone.
  { intros q Hq Hv. rewrite Hspec. f_equal. apply existsb_exists. eauto. }
  split; [apply Hspec|split; [|split; [|split]]].
  - rewrite Hspec. split.
    + intros H. injection H as H. apply existsb_exists in H as (q & Hq & Hv).
      exists q. split; [exact Hq|].
      rewrite is_match_relative by assumption. now rewrite Hv.
    + intros (q & Hq & Hm). rewrite is_match_relative in Hm by assumption.
      injection Hm as Hm. f_equal. apply existsb_exists. eauto.
  - intros q Hq Hn Hraw. apply (Hone q Hq). unfold verdict.
    now rewrite Hn, Hraw.
  - intros P q q' B E Hq Hq' Hin Hm. apply (Hone q' Hin).
    destruct (init_negated P B E) as [Hinit Hneg].
    rewrite Hq in Hinit. rewrite Hinit in Hq'. injection Hq' as <-.
    rewrite is_match_relative in Hm by assumption. injection Hm as Hm.
    rewrite (verdict_fields fs q) by reflexivity.
    cbn [negate]. now rewrite (Hneg q Hq), Hm.
  - intros l1 l2 q -> H. rewrite Hspec in *. injection H as H. f_equal.
    rewrite existsb_app in *. cbn [existsb].
    apply orb_true_iff in H as [-> | ->]; [reflexivity|].
    now rewrite !orb_true_r.
Qed.

(** Exclusion of [/s/a/b.py] under [/s] by the list of the one pattern
    [!test] *)
Lemma is_excluded_by_any_pattern_witness :
  (relative_to (Path "/s/a/b.py") (Path "/s") = Ok (Path "a/b.py")
   /\ is_absolute (Path "a/b.py") = false)
  /\ is_excluded (Dir []) (Path "/s")
       [{| pattern := "!test"; terms := ["test"]; anchored := false;
           negate := true; dir_only := false |}]
       (Path "/s/a/b.py")
     = Ok true.
Proof.
  split; [split; reflexivity|].
  refine (eq_trans
            (proj1 (is_excluded_by_any_pattern (Dir []) (Path "/s")
                      (Path "/s/a/b.py") (Path "a/b.py") _ _ _)) _);
    reflexivity.
Defined.

(** ** Paths below an absolute directory *)

Lemma is_absolute_resolve (p : PurePath) : is_absolute (resolve p) = true.
Proof. reflexivity. Qed.

(** The walk keeps to the tree: where it arrives is where the names that
    are left once every [..] has taken out the name before it lead. *)
Lemma walk_chain (fs : node) (names stack : list string) (up up' : list node)
    (cur n : node) :
  chain fs stack up cur ->
  walk_names up cur names = Some (up', n) ->
  chain fs (normalise stack names) up' n.
Proof.
  revert stack up cur. induction names as [|a names' IH];
    intros stack up cur Hc.
  - cbn. intros H. now injection H as <- <-.
  - cbn [walk_names normalise].
    destruct cur as [t|entries|e]; try discriminate.
    destruct (String.eqb a "..") eqn:E.
    + destruct up as [|parent_ up0].
      * destruct stack; [|destruct Hc]. now apply IH.
      * destruct stack as [|s stack0]; [destruct Hc|].
        destruct parent_ as [t|es|e]; try (now destruct Hc).
        destruct Hc as (_ & _ & Hc). now apply IH.
    + destruct (find_entry a entries) as [x|] eqn:F; [|discriminate].
      apply IH. cbn. now repeat split.
Qed.

Lemma chain_walk (fs : node) (stack : list string) (up : list node)
    (cur : node) (names : list string) :
  chain fs stack up cur ->
  walk_names [] fs (rev stack ++ names) = walk_names up cur names.
Proof.
  revert up cur names. induction stack as [|s stack' IH];
    intros up cur names Hc.
  - destruct up; [|destruct Hc]. cbn in Hc. now subst.
  - destruct up as [|parent_ up']; [destruct Hc|].
    destruct parent_ as [t|es|e]; try (now destruct Hc).
    destruct Hc as (Hs & Hf & Hc).
    cbn [rev]. rewrite <- app_assoc. cbn [app].
    rewrite (IH _ _ _ Hc). cbn [walk_names]. now rewrite Hs, Hf.
Qed.

(** A path that exists resolves to a path of the same node. *)
Lemma lookup_resolve (fs : node) (p : PurePath) (n : node) :
  lookup fs p = Some n -> lookup fs (resolve p) = Some n.
Proof.
  unfold lookup, resolve. cbn [is_absolute startswith tl].
  change (Ascii.eqb "/" "/" && true) with true. cbv iota.
  destruct (walk_names [] fs (if is_absolute p then tl p else p))
    as [[up' n']|] eqn:W; [|discriminate].
  intros H. injection H as ->.
  apply (walk_chain fs _ [] [] up' fs n eq_refl) in W.
  rewrite <- (app_nil_r (rev _)), (chain_walk fs _ up' n [] W).
  reflexivity.
Qed.

Lemma lookup_names_app (fs : node) (l1 l2 : list string) :
  lookup_names fs (l1 ++ l2) =
  match lookup_names fs l1 with
  | Some n => lookup_names n l2
  | None => None
  end.
Proof.
  revert fs. induction l1 as [|a l1' IH]; intros fs; [reflexivity|].
  cbn [app lookup_names]. destruct fs as [|entries|]; try reflexivity.
  destruct (find_entry a entries); [apply IH | reflexivity].
Qed.

Lemma walk_names_app (up : list node) (cur : node) (l1 l2 : list string) :
  walk_names up cur (l1 ++ l2) =
  match walk_names up cur l1 with
  | Some (up', n) => walk_names up' n l2
  | None => None
  end.
Proof.
  revert up cur. induction l1 as [|a l1' IH]; intros up cur; [reflexivity|].
  cbn [app walk_names]. destruct cur as [|entries|]; try reflexivity.
  destruct (String.eqb a "..").
  - destruct up; apply IH.
  - destruct (find_entry a entries); [apply IH | reflexivity].
Qed.

(** Without [..] the walk is the descent by entry names. *)
Lemma walk_names_plain (up : list node) (cur : node) (l : list string) :
  forallb (fun s => negb (String.eqb s "..")) l = true ->
  match walk_names up cur l with
  | Some (_, n) => Some n
  | None => None
  end = lookup_names cur l.
Proof.
  revert up cur. induction l as [|a l' IH]; intros up cur H; [reflexivity|].
  cbn [forallb] in H. apply andb_true_iff in H as [Ha H].
  apply negb_true_iff in Ha.
  cbn [walk_names lookup_names]. destruct cur as [|entries|]; try reflexivity.
  rewrite Ha. destruct (find_entry a entries); [now apply IH | reflexivity].
Qed.

(** The last step of a walk is made from a directory. *)
Lemma walk_names_last (up : list node) (cur : node) (l : list string)
    (x : string) :
  walk_names up cur (l ++ [x]) <> None ->
  exists up' es, walk_names up cur l = Some (up', Dir es).
Proof.
  rewrite walk_names_app.
  destruct (walk_names up cur l) as [[up' n]|]; [|contradiction].
  cbn [walk_names]. destruct n as [|es|]; try contradiction. eauto.
Qed.

Section BelowBase.

Variable base : PurePath.
Hypothesis base_absolute : is_absolute base = true.

Lemma below_is_absolute (l : list string) : is_absolute (base ++ l) = true.
Proof. destruct base; [discriminate | exact base_absolute]. Qed.

Lemma below_lookup (fs : node) (l : list string) :
  forallb (fun s => negb (String.eqb s "..")) l = true ->
  lookup fs (base ++ l) =
  match lookup fs base with
  | Some n => lookup_names n l
  | None => None
  end.
Proof.
  intros Hl. unfold lookup. rewrite below_is_absolute, base_absolute.
  destruct base as [|r names]; [discriminate|].
  cbn [app tl]. rewrite walk_names_app.
  destruct (walk_names [] fs names) as [[up' n]|]; [|reflexivity].
  now apply walk_names_plain.
Qed.

Lemma below_relative_to (l : list string) :
  relative_to (base ++ l) base = Ok l.
Proof.
  unfold relative_to. destruct base as [|r names] eqn:B; [discriminate|].
  rewrite <- B.
  assert (is_prefix base (base ++ l) = true) as ->.
  { clear. induction base as [|a b IH]; [reflexivity|].
    cbn. now rewrite String.eqb_refl. }
  f_equal. rewrite skipn_app, skipn_all, Nat.sub_diag. reflexivity.
Qed.

Lemma below_name (l : list string) (x : string) :
  path_name (base ++ l ++ [x]) = x.
Proof.
  unfold path_name. rewrite below_is_absolute.
  rewrite app_assoc, last_last.
  destruct base as [|r names]; [discriminate|].
  cbn [app]. destruct (names ++ l) eqn:E; reflexivity.
Qed.

Lemma below_parent (l : list string) (x : string) :
  parent (base ++ l ++ [x]) = base ++ l.
Proof.
  unfold parent. destruct base as [|r names]; [discriminate|].
  cbn [app]. destruct (names ++ l ++ [x]) eqn:E.
  - apply app_eq_nil in E as [_ E]. apply app_eq_nil in E as [_ E].
    discriminate.
  - rewrite <- E.
    change (r :: names ++ l ++ [x]) with ((r :: names) ++ l ++ [x]).
    rewrite app_assoc. apply removelast_last.
Qed.

End BelowBase.

(** ** The search directory *)

Lemma mapM_raise {A B : Type} (f : A -> result B) (l : list A) (e : exn) :
  mapM f l = Raise e -> exists a, In a l /\ f a = Raise e.
Proof.
  induction l as [|a l' IH]; [discriminate|]. cbn [mapM].
  destruct (f a) as [b|e'] eqn:F; cbn [bind].
  - destruct (mapM f l') as [bs|e'']; [discriminate|]. cbn [bind].
    intros H. injection H as ->.
    destruct (IH eq_refl) as (x & Hx & Fx). exists x. split; [now right|].
    exact Fx.
  - intros H. injection H as ->. exists a. split; [now left | exact F].
Qed.

Lemma default_patterns_compile :
  exists pats,
    mapM (fun item => RelPathPattern_of (inl item)) EXCLUDE_PATTERNS = Ok pats
    /\ List.length pats = 27.
Proof. eexists. split; reflexivity. Qed.

(** C8 as stated fails: the search directory is a file, and with a pattern
    that does not compile in the exclude list the error is the [ValueError]
    of the pattern, raised before the directory is asserted. *)
Lemma find_module_roots_pattern_error_first :
  path_exists (Dir [("f", File "")]) (Path "/f") = true
  /\ is_dir (Dir [("f", File "")]) (resolve (Path "/f")) = false
  /\ find_module_roots (Dir [("f", File "")]) "/f" [""] = Raise ValueError.
Proof. repeat split; reflexivity. Qed.

(** C8, as the code has it.  A search directory that does not exist gives
    the empty list, whatever the exclude list.  One that exists and is not a
    directory gives an [AssertionError] when every exclude pattern compiles,
    as those of the default list do; when one does not, the [ValueError] of
    the pattern is raised instead. *)
Theorem find_module_roots_search_dir (fs : node) (search_dir_ : string)
    (exclude : list string) :
  (path_exists fs (Path search_dir_) = false ->
   find_module_roots fs search_dir_ exclude = Ok [])
  /\ (path_exists fs (Path search_dir_) = true ->
      is_dir fs (resolve (Path search_dir_)) = false ->
      (forall pats,
          mapM (fun item => RelPathPattern_of (inl item)) exclude = Ok pats ->
          find_module_roots fs search_dir_ exclude = Raise AssertionError)
      /\ find_module_roots fs search_dir_ EXCLUDE_PATTERNS
         = Raise AssertionError
      /\ (forall e,
          mapM (fun item => RelPathPattern_of (inl item)) exclude = Raise e ->
          e = ValueError
          /\ find_module_roots fs search_dir_ exclude = Raise ValueError)).
Proof.
  unfold find_module_roots. split.
  - now intros ->.
  - intros -> Hd. cbn [negb]. rewrite Hd. cbn [negb]. split; [|split].
    + now intros pats ->.
    + destruct default_patterns_compile as (pats & -> & _). reflexivity.
    + intros e He. rewrite He. cbn [bind].
      apply mapM_raise in He as (text & _ & He). cbn in He.
      destruct (init_total text) as [H | [q H]]; rewrite H in He.
      * injection He as <-. now split.
      * discriminate.
Qed.

(** The search directory [/f], a file, with the one pattern [docs] *)
Lemma find_module_roots_search_dir_witness :
  (path_exists (Dir [("f", File "")]) (Path "/f") = true
   /\ is_dir (Dir [("f", File "")]) (resolve (Path "/f")) = false)
  /\ find_module_roots (Dir [("f", File "")]) "/f" ["docs"]
     = Raise AssertionError
  /\ (path_exists (Dir [("f", File "")]) (Path "/g") = false
      /\ find_module_roots (Dir [("f", File "")]) "/g" [""] = Ok []).
Proof.
  split; [split; reflexivity|]. split.
  - refine (proj1 (proj2 (find_module_roots_search_dir
                            (Dir [("f", File "")]) "/f" ["docs"])
                     eq_refl eq_refl) _ eq_refl).
  - split; [reflexivity|].
    exact (proj1 (find_module_roots_search_dir (Dir [("f", File "")]) "/g" [""])
             eq_refl).
Defined.

(** ** Discovery *)

Lemma glob_namespace_hierarchy (text : string) (here : PurePath) :
  glob_py (Dir [("ns", Dir [("sub", Dir [("__init__.py", File text)])])]) here
  = [here ++ ["ns"; "sub"; "__init__.py"]].
Proof.
  transitivity [((here ++ ["ns"]) ++ ["sub"]) ++ ["__init__.py"]];
    [reflexivity|].
  now rewrite <- !app_assoc.
Qed.

(** C2.  Below the search directory there is [ns/sub/__init__.py] and no
    more; the init file holds no namespace declaration and no exclude
    pattern matches it.  Then the one module found is the directory
    [ns/sub], under the name [ns.sub]. *)
Theorem find_module_roots_namespace_hierarchy (fs : node)
    (search_dir_ : string) (exclude : list string)
    (pats : list RelPathPattern) (text : string) :
  lookup fs (Path search_dir_)
  = Some (Dir [("ns", Dir [("sub", Dir [("__init__.py", File text)])])]) ->
  existsb (String.eqb (strip text)) NAMESPACE_INIT_CONTENTS = false ->
  mapM (fun item => RelPathPattern_of (inl item)) exclude = Ok pats ->
  is_excluded fs (resolve (Path search_dir_)) pats
    (resolve (Path search_dir_) ++ ["ns"; "sub"; "__init__.py"]) = Ok false ->
  exists m,
    find_module_roots fs search_dir_ exclude = Ok [m]
    /\ name m = Ok "ns.sub"
    /\ rel_path m = Path "ns/sub"
    /\ path m = resolve (Path search_dir_) ++ Path "ns/sub"
    /\ search_dir m = search_dir_.
Proof.
  intros Hfs Htext Hpats Hex.
  pose proof (is_absolute_resolve (Path search_dir_)) as Habs.
  pose proof (lookup_resolve fs (Path search_dir_) _ Hfs) as Hres.
  set (base := resolve (Path search_dir_)) in *.
  exists {| path := base ++ ["ns"; "sub"]; rel_path := ["ns"; "sub"];
            search_dir := search_dir_ |}.
  split; [|repeat split; reflexivity].
  unfold find_module_roots, path_exists, is_dir, glob. fold base.
  rewrite Hfs, Hpats, Hres. cbn [negb bind].
  rewrite glob_namespace_hierarchy. cbn [collect].
  rewrite (below_relative_to base Habs). cbn [bind].
  assert (lookup fs (base ++ ["ns"; "sub"; "__init__.py"]) = Some (File text))
    as Hfile
    by (rewrite (below_lookup base Habs fs ["ns"; "sub"; "__init__.py"]
                   eq_refl), Hres; reflexivity).
  unfold is_file, is_namespace_init, read_text. rewrite Hfile. cbn [negb].
  change (path_eqb ["ns"; "sub"; "__init__.py"] ["__init__.py"]) with false.
  change (existsb (contains ".") (parent ["ns"; "sub"; "__init__.py"]))
    with false.
  cbv iota.
  change (base ++ ["ns"; "sub"; "__init__.py"])
    with (base ++ ["ns"; "sub"] ++ ["__init__.py"]) in *.
  rewrite (below_name base Habs ["ns"; "sub"] "__init__.py").
  change (String.eqb "__init__.py" "__init__.py") with true. cbv iota.
  cbn [bind]. rewrite Htext, Hex. cbn [bind].
  rewrite (below_parent base Habs ["ns"; "sub"] "__init__.py").
  reflexivity.
Qed.

(** The hierarchy under [/s], an empty init file, the default patterns *)
Lemma find_module_roots_namespace_hierarchy_witness :
  (lookup
     (Dir [("s", Dir [("ns", Dir [("sub", Dir [("__init__.py", File "")])])])])
     (Path "/s")
   = Some (Dir [("ns", Dir [("sub", Dir [("__init__.py", File "")])])])
   /\ existsb (String.eqb (strip "")) NAMESPACE_INIT_CONTENTS = false)
  /\ exists m,
      find_module_roots
        (Dir [("s", Dir [("ns", Dir [("sub", Dir [("__init__.py", File "")])])])])
        "/s" EXCLUDE_PATTERNS = Ok [m]
      /\ name m = Ok "ns.sub"
      /\ rel_path m = Path "ns/sub"
      /\ path m = resolve (Path "/s") ++ Path "ns/sub"
      /\ search_dir m = "/s".
Proof.
  split; [split; reflexivity|].
  eapply find_module_roots_namespace_hierarchy; reflexivity.
Defined.

(** ** Namespace markers *)

Lemma lstrip_head (f : ascii -> bool) (s : string) (c : ascii) (r : string) :
  lstrip f s = String c r -> f c = false.
Proof.
  induction s as [|a s' IH]; cbn [lstrip]; [discriminate|].
  destruct (f a) eqn:Fa; [exact IH|].
  intros H. injection H as <- _. exact Fa.
Qed.

Lemma rstrip_head (f : ascii -> bool) (s : string) (c : ascii) (r : string) :
  rstrip f s = String c r -> exists r', s = String c r'.
Proof.
  destruct s as [|a s']; cbn [rstrip]; [discriminate|].
  destruct (rstrip f s').
  - destruct (f a); [discriminate|]. intros H. injection H as <- _. eauto.
  - intros H. injection H as <- _. eauto.
Qed.

(** Stripped text never starts with white space. *)
Lemma strip_head (s : string) (c : ascii) (r : string) :
  strip s = String c r -> isspace c = false.
Proof.
  unfold strip. intros H. apply rstrip_head in H as [r' H].
  now apply lstrip_head in H.
Qed.

(** The two one-line declarations are recognised. *)
Lemma plain_markers_recognized (fs : node) (p : PurePath) (text : string) :
  path_name p = "__init__.py" -> read_text fs p = Ok text ->
  strip text
  = "__path__ = __import__('pkgutil').extend_path(__path__, __name__)"
  \/ strip text = "__import__('pkg_resources').declare_namespace(__name__)" ->
  is_namespace_init fs p = Ok true.
Proof.
  intros Hn Hr Ht. unfold is_namespace_init. rewrite Hn, Hr. cbn [bind].
  destruct Ht as [-> | ->]; reflexivity.
Qed.

(** C1 fails on the code for the third of the declarations.  The set holds
    the try/except text as [textwrap.dedent] returns it, between two line
    breaks, and stripped text starts with no line break: no file content is
    equal to it once stripped.  An init file that holds the try/except text
    is not recognised, and its directory is returned as a module. *)
Theorem hybrid_marker_not_recognized :
  nth 2 NAMESPACE_INIT_CONTENTS "" = (nl ++ hybrid_init_text ++ nl)%string
  /\ strip (nth 2 NAMESPACE_INIT_CONTENTS "") = hybrid_init_text
  /\ (forall text, strip text <> nth 2 NAMESPACE_INIT_CONTENTS "")
  /\ (forall text,
      existsb (String.eqb (strip text)) NAMESPACE_INIT_CONTENTS
      = existsb (String.eqb (strip text)) (firstn 2 NAMESPACE_INIT_CONTENTS))
  /\ is_namespace_init
       (Dir [("ns", Dir [("__init__.py", File (hybrid_init_text ++ nl))])])
       (Path "/ns/__init__.py")
     = Ok false
  /\ find_module_roots
       (Dir [("ns", Dir [("__init__.py", File (hybrid_init_text ++ nl))])])
       "/" []
     = Ok [{| path := Path "/ns"; rel_path := Path "ns"; search_dir := "/" |}].
Proof.
  assert (forall text, strip text <> nth 2 NAMESPACE_INIT_CONTENTS "") as Hno.
  { intros text H.
    change (nth 2 NAMESPACE_INIT_CONTENTS "")
      with (String newline (hybrid_init_text ++ nl)) in H.
    apply strip_head in H. discriminate. }
  split; [reflexivity|]. split; [reflexivity|]. split; [exact Hno|].
  split; [|split; reflexivity].
  intros text. specialize (Hno text).
  change NAMESPACE_INIT_CONTENTS
    with (firstn 2 NAMESPACE_INIT_CONTENTS
          ++ [nth 2 NAMESPACE_INIT_CONTENTS ""]).
  rewrite existsb_app. cbn [existsb].
  apply String.eqb_neq in Hno. rewrite Hno.
  now rewrite !orb_false_r.
Qed.

(** With a one-line declaration in [ns/__init__.py] the directory [ns] is
    no module of its own, and the package below it is found. *)
Lemma plain_marker_discarded :
  find_module_roots
    (Dir [("ns",
           Dir [("__init__.py",
                 File "__import__('pkg_resources').declare_namespace(__name__)");
                ("sub", Dir [("__init__.py", File "")])])])
    "/" EXCLUDE_PATTERNS
  = Ok [{| path := Path "/ns/sub"; rel_path := Path "ns/sub";
           search_dir := "/" |}].
Proof. reflexivity. Qed.

(** ** A pattern of one term *)

Lemma split_without_sep (sep : ascii) (s : string) :
  contains sep s = false -> split sep s = [s].
Proof.
  induction s as [|c s' IH]; [reflexivity|]. cbn [contains split].
  intros H. apply orb_false_iff in H as [-> H]. now rewrite (IH H).
Qed.

Lemma endswith_contains (c : ascii) (s : string) :
  contains c s = false -> endswith c s = false.
Proof.
  induction s as [|a s' IH]; [reflexivity|]. cbn [contains].
  intros H. apply orb_false_iff in H as [Ha H].
  destruct s'; [exact Ha | now apply IH].
Qed.

(** A text without a slash, not empty, not [**] and starting with neither
    [!] nor [\!], compiles to the one term it is, and matches a relative
    path exactly when it matches one of its parts, at any depth. *)
Lemma unanchored_pattern_matches_anywhere (fs : node) (text : string)
    (p : PurePath) (rel_to : option PurePath) :
  contains slash text = false -> text <> "" -> text <> "**" ->
  startswith "!" text = false -> startswith "\!" text = false ->
  is_absolute p = false ->
  compiled_match fs text p rel_to
  = Ok (existsb (fun part => fnmatch part text) p).
Proof.
  intros Hs Hne Hstar B E Hp. unfold compiled_match.
  rewrite RelPathPattern_init_eq. cbv zeta.
  assert (pattern_body text = text) as ->
    by (unfold pattern_body; now rewrite B, E).
  rewrite (rstrip_without_suffix _ _ (endswith_contains _ _ Hs)).
  rewrite (split_without_sep _ _ Hs), Hs, B, (endswith_contains _ _ Hs).
  destruct text as [|c t]; [contradiction|]. cbn [filter nonempty bind].
  rewrite is_match_relative by assumption. unfold verdict, _is_match.
  cbn [negate anchored terms skipn xorb]. f_equal.
  apply walk_single_term; [|reflexivity].
  now apply String.eqb_neq.
Qed.


(** ** What a compiled pattern holds *)

(** The object built from a text records the text, has at least one term,
    no term is empty or has a slash in it, and it is negated exactly when
    the text starts with [!]. *)
Theorem compiled_pattern_invariant (text : string) (q : RelPathPattern) :
  RelPathPattern_init text = Ok q ->
  pattern q = text
  /\ terms q <> []
  /\ (forall t, In t (terms q) -> t <> "" /\ contains slash t = false)
  /\ negate q = startswith "!" text
  /\ dir_only q = endswith slash (pattern_body text).
Proof.
  rewrite RelPathPattern_init_eq. cbv zeta.
  destruct (filter nonempty _) as [|t0 ts] eqn:F; [discriminate|].
  intros H. injection H as <-. cbn [pattern terms negate dir_only].
  split; [reflexivity|]. split; [discriminate|].
  split; [|split; reflexivity].
  intros t Ht. rewrite <- F in Ht. apply filter_In in Ht as [Hin Hne].
  split; [intros ->; discriminate|].
  now apply split_parts_no_sep in Hin.
Qed.

Lemma compiled_pattern_invariant_witness :
  RelPathPattern_init "!/a//b/"
  = Ok {| pattern := "!/a//b/"; terms := ["a"; "b"]; anchored := true;
          negate := true; dir_only := true |}
  /\ terms {| pattern := "!/a//b/"; terms := ["a"; "b"]; anchored := true;
              negate := true; dir_only := true |} <> [].
Proof.
  split; [reflexivity|].
  exact (proj1 (proj2 (compiled_pattern_invariant "!/a//b/" _ eq_refl))).
Defined.

Lemma rstrip_app_slash (s : string) :
  rstrip (Ascii.eqb slash) (s ++ "/") = rstrip (Ascii.eqb slash) s.
Proof.
  induction s as [|a s' IH]; [reflexivity|].
  cbn [append rstrip]. now rewrite IH.
Qed.

Lemma endswith_app_slash (s : string) : endswith slash (s ++ "/") = true.
Proof.
  induction s as [|a s' IH]; [reflexivity|].
  cbn [append endswith]. destruct (s' ++ "/")%string eqn:E; [|exact IH].
  destruct s'; discriminate.
Qed.

Lemma pattern_body_app_slash (text : string) :
  pattern_body (text ++ "/") = (pattern_body text ++ "/")%string
  /\ startswith "!" (text ++ "/") = startswith "!" text.
Proof.
  unfold pattern_body.
  destruct text as [|c [|d t]]; [split; reflexivity| |].
  - cbn [append startswith]. rewrite !andb_true_r, !andb_false_r.
    now destruct (Ascii.eqb "!" c).
  - cbn [append startswith]. rewrite !andb_true_r.
    now destruct (Ascii.eqb "!" c), (Ascii.eqb "\" c), (Ascii.eqb "!" d).
Qed.

Lemma init_app_slash (text : string) :
  RelPathPattern_init (text ++ "/") =
  match RelPathPattern_init text with
  | Ok q =>
      Ok {| pattern := (text ++ "/")%string; terms := terms q;
            anchored := anchored q; negate := negate q; dir_only := true |}
  | Raise e => Raise e
  end.
Proof.
  rewrite !RelPathPattern_init_eq. cbv zeta.
  destruct (pattern_body_app_slash text) as [-> ->].
  rewrite rstrip_app_slash, endswith_app_slash.
  now destruct (filter nonempty _).
Qed.

(** A slash added at the end of any pattern text sets [dir_only] and
    changes nothing else but the recorded text: the terms, the anchoring and
    the negation are those of the text without it, the longer text compiles
    exactly when the shorter one does, and a second slash adds nothing to
    the first. *)
Theorem init_trailing_slash (text : string) :
  RelPathPattern_init (text ++ "/") =
  match RelPathPattern_init text with
  | Ok q =>
      Ok {| pattern := (text ++ "/")%string; terms := terms q;
            anchored := anchored q; negate := negate q; dir_only := true |}
  | Raise e => Raise e
  end
  /\ (RelPathPattern_init (text ++ "/") = Raise ValueError <->
      RelPathPattern_init text = Raise ValueError)
  /\ (forall q q2,
      RelPathPattern_init (text ++ "/") = Ok q ->
      RelPathPattern_init ((text ++ "/") ++ "/") = Ok q2 ->
      terms q2 = terms q /\ anchored q2 = anchored q
      /\ negate q2 = negate q /\ dir_only q2 = dir_only q).
Proof.
  split; [apply init_app_slash|]. split.
  - rewrite init_app_slash.
    destruct (RelPathPattern_init text); split; congruence.
  - intros q q2 Hq. rewrite (init_app_slash (text ++ "/")), Hq.
    intros H. injection H as <-. cbn.
    rewrite init_app_slash in Hq.
    destruct (RelPathPattern_init text); [|discriminate].
    injection Hq as <-. now repeat split.
Qed.

(** ** The last test of the walk *)

Lemma walk_end_step (t : string) (ts : list string) (x : string)
    (parts : list string) (a : bool) (i : nat) :
  walk_end (t :: ts) (x :: parts) a i =
  if String.eqb t "**" then walk_end ts (x :: parts) false i
  else if fnmatch x t then walk_end ts parts true (S i)
  else if a then None
  else walk_end (t :: ts) parts false (S i).
Proof. reflexivity. Qed.

(** The file system and [dir_only] come in at the end only: the walk finds
    where the terms are used up, and the directory test is made there. *)
Lemma walk_factor (fs : node) (self : RelPathPattern) (rp : PurePath)
    (rel_to : option PurePath) (ts parts : list string) (a : bool) (i : nat) :
  _is_match_from fs self rp rel_to ts parts a i =
  match walk_end ts parts a i with
  | Some j =>
      match rel_to with
      | Some base =>
          if dir_only self then is_dir fs (base ++ firstn j rp) else true
      | None => true
      end
  | None => false
  end.
Proof.
  revert parts a i. induction ts as [|t ts' IH]; intros parts a i;
    [reflexivity|].
  revert a i. induction parts as [|x parts' IHp]; intros a i; [reflexivity|].
  rewrite walk_step, walk_end_step, !IH, IHp.
  destruct (String.eqb t "**"); [reflexivity|].
  destruct (fnmatch x t); [reflexivity|]. now destruct a.
Qed.

(** The terms are used up at or after the index the walk starts from, within
    the parts, and after it when a term is not [**]. *)
Lemma walk_end_bounds (ts parts : list string) (a : bool) (i j : nat) :
  walk_end ts parts a i = Some j ->
  i <= j <= i + List.length parts
  /\ ((exists t, In t ts /\ String.eqb t "**" = false) -> i < j).
Proof.
  revert parts a i. induction ts as [|t ts' IH]; intros parts a i.
  - cbn. intros H. injection H as <-. split; [lia|].
    intros (t & [] & _).
  - revert a i. induction parts as [|x parts' IHp]; intros a i;
      [discriminate|].
    rewrite walk_end_step. cbn [List.length].
    destruct (String.eqb t "**") eqn:Et.
    + intros H. apply IH in H as [Hb Hs]. split; [exact Hb|].
      intros (t' & [<- | Ht'] & Hne); [congruence|].
      apply Hs. eauto.
    + destruct (fnmatch x t).
      * intros H. apply IH in H as [Hb _]. split; lia.
      * destruct a; [discriminate|].
        intros H. apply IHp in H as [Hb _]. split; lia.
Qed.

Lemma compiled_match_relative (fs : node) (text : string) (p : PurePath)
    (rel_to : option PurePath) :
  is_absolute p = false ->
  compiled_match fs text p rel_to
  = (q <- RelPathPattern_init text ;; Ok (verdict fs q p rel_to)).
Proof.
  intros Hp. unfold compiled_match.
  destruct (RelPathPattern_init text); [|reflexivity].
  cbn [bind]. now apply is_match_relative.
Qed.

(** Without [rel_to] the file system is not looked at and a slash at the end
    of the pattern text makes no difference. *)
Theorem trailing_slash_without_rel_to (fs fs' : node) (text : string)
    (p : PurePath) :
  compiled_match fs (text ++ "/") p None = compiled_match fs' text p None.
Proof.
  unfold compiled_match. rewrite init_app_slash.
  destruct (RelPathPattern_init text) as [q|e]; [|reflexivity].
  cbn [bind]. unfold is_match, _is_match.
  destruct (is_absolute p); [reflexivity|].
  cbn [negate anchored terms]. now rewrite !walk_factor.
Qed.

(** With [rel_to] a slash at the end of the pattern text can only take
    matches away: what the text with the slash matches, the text without it
    matches, and for a negated text it is the other way round. *)
Theorem trailing_slash_restricts (fs : node) (text : string) (p : PurePath)
    (base : PurePath) :
  (startswith "!" text = false ->
   compiled_match fs (text ++ "/") p (Some base) = Ok true ->
   compiled_match fs text p (Some base) = Ok true)
  /\ (startswith "!" text = true ->
      compiled_match fs text p (Some base) = Ok true ->
      compiled_match fs (text ++ "/") p (Some base) = Ok true).
Proof.
  unfold compiled_match. rewrite init_app_slash.
  destruct (RelPathPattern_init text) as [q|e] eqn:Hq;
    [|split; intros _ H; exact H].
  assert (negate q = startswith "!" text) as Hn.
  { rewrite RelPathPattern_init_eq in Hq. cbv zeta in Hq.
    destruct (filter nonempty _); [discriminate|]. now injection Hq as <-. }
  cbn [bind]. unfold is_match, _is_match.
  destruct (is_absolute p); [split; intros _ H; exact H|].
  cbn [negate anchored terms dir_only]. rewrite !walk_factor, Hn.
  split; intros ->; destruct (walk_end _ _ _ _); try tauto;
    destruct (dir_only q), (is_dir fs _); try tauto; discriminate.
Qed.

Lemma trailing_slash_restricts_witness :
  (startswith "!" "test/dir" = false
   /\ compiled_match
        (Dir [("tmp", Dir [("test", Dir [("dir", Dir [])])])])
        "test/dir/" (Path "test/dir") (Some (Path "/tmp")) = Ok true)
  /\ compiled_match
       (Dir [("tmp", Dir [("test", Dir [("dir", Dir [])])])])
       "test/dir" (Path "test/dir") (Some (Path "/tmp")) = Ok true.
Proof.
  split; [split; reflexivity|].
  apply (proj1 (trailing_slash_restricts _ "test/dir" _ _)); reflexivity.
Defined.

(** A [dir_only] pattern that is not negated, given [rel_to], matches a path
    that is no directory only through a directory above it: the terms are
    used up before the last part, at a prefix that is a directory, and that
    prefix is not empty when a term is not [**].  So an entry of the base
    directory that is no directory is never matched by such a pattern. *)
Theorem dir_only_matches_through_directory (fs : node) (q : RelPathPattern)
    (p base : PurePath) :
  dir_only q = true -> negate q = false ->
  is_dir fs (base ++ p) = false ->
  is_match fs q p (Some base) = Ok true ->
  exists j,
    walk_end (terms q) p (anchored q) 0 = Some j
    /\ j < List.length p
    /\ is_dir fs (base ++ firstn j p) = true
    /\ ((exists t, In t (terms q) /\ String.eqb t "**" = false) ->
        0 < j /\ 2 <= List.length p).
Proof.
  intros Hd Hn Hfile. unfold is_match, _is_match.
  destruct (is_absolute p); [discriminate|].
  rewrite Hn, walk_factor, Hd. cbn [skipn].
  destruct (walk_end (terms q) p (anchored q) 0) as [j|] eqn:W;
    [|discriminate].
  intros H. injection H as H. exists j.
  destruct (walk_end_bounds _ _ _ _ _ W) as [Hb Hs]. cbn in Hb.
  assert (j < List.length p) as Hj.
  { destruct (Nat.eq_dec j (List.length p)) as [-> | Hne]; [|lia].
    rewrite firstn_all in H. congruence. }
  repeat split; try assumption.
  - now apply Hs.
  - apply Hs in H0. lia.
Qed.

Lemma dir_only_matches_through_directory_witness :
  (dir_only {| pattern := "test/"; terms := ["test"]; anchored := false;
               negate := false; dir_only := true |} = true
   /\ is_dir (Dir [("tmp", Dir [("test", Dir [("file", File "")])])])
        (Path "/tmp" ++ Path "test/file") = false
   /\ is_match (Dir [("tmp", Dir [("test", Dir [("file", File "")])])])
        {| pattern := "test/"; terms := ["test"]; anchored := false;
           negate := false; dir_only := true |}
        (Path "test/file") (Some (Path "/tmp")) = Ok true)
  /\ exists j,
      walk_end ["test"] (Path "test/file") false 0 = Some j
      /\ j < 2
      /\ is_dir (Dir [("tmp", Dir [("test", Dir [("file", File "")])])])
           (Path "/tmp" ++ firstn j (Path "test/file")) = true.
Proof.
  split; [repeat split; reflexivity|].
  destruct (dir_only_matches_through_directory
              (Dir [("tmp", Dir [("test", Dir [("file", File "")])])])
              {| pattern := "test/"; terms := ["test"]; anchored := false;
                 negate := false; dir_only := true |}
              (Path "test/file") (Path "/tmp")
              eq_refl eq_refl eq_refl eq_refl) as (j & H1 & H2 & H3 & _).
  exists j. repeat split; assumption.
Defined.

(** ** More on the reduction to roots *)

Lemma subseq_refl {T : Type} (l : list T) : subseq l l.
Proof. induction l; constructor; assumption. Qed.

Lemma subseq_filter {T : Type} (f : T -> bool) (l : list T) :
  subseq (filter f l) l.
Proof.
  induction l as [|x l' IH]; cbn [filter]; [constructor|].
  destruct (f x); constructor; assumption.
Qed.

Lemma subseq_app {T : Type} (a b c d : list T) :
  subseq a b -> subseq c d -> subseq (a ++ c) (b ++ d).
Proof.
  intros Hab Hcd. induction Hab; cbn [app]; try constructor; assumption.
Qed.

Lemma subseq_trans {T : Type} (a b c : list T) :
  subseq a b -> subseq b c -> subseq a c.
Proof.
  intros Hab Hbc. revert a Hab.
  induction Hbc as [|x l1 l2 H IH|x l1 l2 H IH]; intros a Hab.
  - exact Hab.
  - constructor. now apply IH.
  - inversion Hab; subst; constructor; now apply IH.
Qed.

Lemma subseq_app_nil_r {T : Type} (l extra : list T) :
  subseq l (l ++ extra).
Proof.
  rewrite <- (app_nil_r l) at 1. apply subseq_app; [apply subseq_refl|].
  induction extra; constructor; assumption.
Qed.

Lemma subseq_In {T : Type} (a b : list T) (x : T) :
  subseq a b -> In x a -> In x b.
Proof.
  intros H. induction H; cbn [In]; intuition.
Qed.

Section RootReducerMore.

Context {T : Type}.
Variable T_eq_dec : forall x y : T, {x = y} + {x <> y}.
Variable is_descendant : T -> T -> bool.

Let reducer := root_reducer T_eq_dec is_descendant.

Lemma reducer_subseq (roots : list T) (item : T) :
  exists roots',
    reducer roots item = Ok roots' /\ subseq roots' (roots ++ [item]).
Proof.
  unfold reducer. rewrite root_reducer_spec. eexists. split; [reflexivity|].
  destruct (existsb _ roots).
  - apply subseq_app_nil_r.
  - apply subseq_app; [apply subseq_filter | apply subseq_refl].
Qed.

Lemma reduce_subseq (items initial : list T) :
  exists roots,
    reduce reducer items initial = Ok roots
    /\ subseq roots (initial ++ items).
Proof.
  revert initial. induction items as [|item items' IH]; intros initial.
  - exists initial. rewrite app_nil_r. split; [reflexivity|].
    apply subseq_refl.
  - cbn [reduce].
    destruct (reducer_subseq initial item) as (roots1 & -> & Hs).
    cbn [bind]. destruct (IH roots1) as (roots & Hr & Hs').
    exists roots. split; [exact Hr|].
    apply (subseq_trans _ _ _ Hs').
    change (item :: items') with ([item] ++ items'). rewrite app_assoc.
    apply subseq_app; [exact Hs | apply subseq_refl].
Qed.

(** Whatever the descendant test, a partial order or not, the fold never
    raises: [list.remove] is only asked for elements that are in the list.
    Its result is the start list and the items with some of them left out,
    the order kept: every root is an item, in the order the items came. *)
Theorem reduce_roots_subsequence (items initial : list T) :
  exists roots,
    reduce reducer items initial = Ok roots
    /\ subseq roots (initial ++ items)
    /\ (forall r, In r roots -> In r (initial ++ items)).
Proof.
  destruct (reduce_subseq items initial) as (roots & H1 & H2).
  exists roots. repeat split; try assumption.
  intros r. now apply subseq_In.
Qed.

Lemma reduce_antichain_fixed (items initial : list T) :
  antichain is_descendant (initial ++ items) ->
  reduce reducer items initial = Ok (initial ++ items).
Proof.
  revert initial. induction items as [|item items' IH]; intros initial Ha.
  - now rewrite app_nil_r.
  - cbn [reduce]. unfold reducer at 1. rewrite root_reducer_spec.
    assert (existsb (is_descendant item) initial = false) as ->.
    { destruct (existsb _ initial) eqn:E; [|reflexivity].
      apply existsb_exists in E as (r & Hr & D).
      rewrite Ha in D; [discriminate| |]; apply in_or_app.
      - right. now left.
      - now left. }
    assert (filter (fun r => negb (is_descendant r item)) initial = initial)
      as ->.
    { apply forallb_filter_id. apply forallb_forall. intros r Hr.
      rewrite Ha; [reflexivity| |]; apply in_or_app.
      - now left.
      - right. now left. }
    cbn [bind]. rewrite IH; rewrite <- app_assoc; [reflexivity | exact Ha].
Qed.

Hypothesis irreflexive : forall x, is_descendant x x = false.

Lemma reduce_keeps_antichain (items roots roots' : list T) :
  antichain is_descendant roots ->
  reduce reducer items roots = Ok roots' ->
  antichain is_descendant roots'.
Proof.
  revert roots. induction items as [|item items' IH]; intros roots Ha.
  - cbn. intros H. now injection H as <-.
  - cbn [reduce].
    destruct (reducer roots item) as [roots1|e] eqn:R; [|discriminate].
    cbn [bind]. apply IH.
    exact (reducer_antichain T_eq_dec is_descendant irreflexive
             roots roots1 item Ha R).
Qed.

(** Items of which none is a descendant of another, or of itself, all stay,
    in their order, and equal items are not merged.  So reducing a second
    time changes nothing: the roots of the roots are the roots.  The
    descendant test need not be transitive for this. *)
Theorem reduce_idempotent :
  (forall items,
      antichain is_descendant items -> reduce reducer items [] = Ok items)
  /\ (forall items roots,
      reduce reducer items [] = Ok roots ->
      reduce reducer roots [] = Ok roots).
Proof.
  split.
  - intros items Ha. now apply (reduce_antichain_fixed items []).
  - intros items roots H. apply (reduce_antichain_fixed roots []).
    apply (reduce_keeps_antichain items [] roots); [|exact H].
    intros x y [].
Qed.

End RootReducerMore.

(** ** Descendants *)

Lemma parent_removelast (p : PurePath) :
  1 <= List.length p - (if is_absolute p then 1 else 0) ->
  parent p = removelast p
  /\ is_absolute (removelast p) = is_absolute p.
Proof.
  destruct p as [|a [|b l]].
  - cbn. lia.
  - unfold parent. destruct (is_absolute [a]) eqn:A.
    + cbn. lia.
    + intros _. split; reflexivity.
  - intros _. split; reflexivity.
Qed.

Lemma removelast_length {A : Type} (l : list A) :
  List.length (removelast l) = List.length l - 1.
Proof. rewrite removelast_firstn_len, length_firstn. lia. Qed.

(** The parents of a path are its prefixes short of it, down to the root
    for an absolute path and to the empty path for a relative one. *)
Lemma parents_fuel_spec (fuel : nat) (p q : PurePath) :
  fuel <= List.length p - (if is_absolute p then 1 else 0) ->
  (In q (parents_fuel fuel p) <->
   exists k, 1 <= k <= fuel /\ q = firstn (List.length p - k) p).
Proof.
  revert p. induction fuel as [|fuel IH]; intros p Hf.
  - cbn. split; [intros [] | intros (k & Hk & _); lia].
  - destruct (parent_removelast p) as [Hp Ha]; [lia|].
    cbn [parents_fuel In]. rewrite Hp, IH.
    2:{ rewrite Ha, removelast_length. destruct (is_absolute p); lia. }
    rewrite removelast_length, removelast_firstn_len.
    split.
    + intros [<- | (k & Hk & ->)].
      * exists 1. split; [lia|]. f_equal. lia.
      * exists (S k). split; [lia|].
        rewrite firstn_firstn. f_equal. lia.
    + intros (k & Hk & ->).
      destruct (Nat.eq_dec k 1) as [-> | Hne].
      * left. f_equal. lia.
      * right. exists (k - 1). split; [lia|].
        rewrite firstn_firstn. f_equal. lia.
Qed.

Lemma is_descentent_of_spec (p other : PurePath) :
  is_descentent_of p other = true <->
  exists rest,
    rest <> [] /\ p = other ++ rest
    /\ (is_absolute p = true -> other <> []).
Proof.
  unfold is_descentent_of, parents. rewrite existsb_exists.
  replace (if is_absolute p then List.length p - 1 else List.length p)
    with (List.length p - (if is_absolute p then 1 else 0))
    by (destruct (is_absolute p); lia).
  split.
  - intros (q & Hq & E). unfold path_eqb in E.
    destruct (list_eq_dec string_dec other q) as [<- | _]; [|discriminate].
    apply parents_fuel_spec in Hq as (k & Hk & Hq); [|lia].
    exists (skipn (List.length p - k) p). split; [|split].
    + intros Hnil. apply (f_equal (@List.length string)) in Hnil.
      rewrite length_skipn in Hnil. cbn in Hnil.
      destruct (is_absolute p); lia.
    + rewrite Hq. symmetry. apply firstn_skipn.
    + intros Ha Hnil. rewrite Ha in Hk. rewrite Hnil in Hq.
      apply (f_equal (@List.length string)) in Hq.
      rewrite length_firstn in Hq. cbn in Hq. lia.
  - intros (rest & Hne & -> & Ha). exists other. split.
    + apply parents_fuel_spec; [lia|].
      exists (List.length rest). rewrite length_app. split.
      * destruct rest; [contradiction|]. cbn [List.length].
        destruct (is_absolute (other ++ s :: rest)) eqn:A; [|lia].
        specialize (Ha eq_refl). destruct other; [contradiction|].
        cbn [List.length]. lia.
      * replace (List.length other + List.length rest - List.length rest)
          with (List.length other + 0) by lia.
        now rewrite firstn_app_2, app_nil_r.
    + unfold path_eqb. now destruct (list_eq_dec string_dec other other).
Qed.

Lemma is_descentent_of_irreflexive (p : PurePath) :
  is_descentent_of p p = false.
Proof.
  destruct (is_descentent_of p p) eqn:E; [|reflexivity].
  apply is_descentent_of_spec in E as (rest & Hne & H & _).
  apply (f_equal (@List.length string)) in H. rewrite length_app in H.
  destruct rest; [contradiction|]. cbn in H. lia.
Qed.

Lemma is_descentent_of_transitive (p q r : PurePath) :
  is_descentent_of p q = true -> is_descentent_of q r = true ->
  is_descentent_of p r = true.
Proof.
  intros Hpq Hqr.
  apply is_descentent_of_spec in Hpq as (r1 & Hn1 & -> & Ha1).
  apply is_descentent_of_spec in Hqr as (r2 & Hn2 & -> & Ha2).
  apply is_descentent_of_spec. exists (r2 ++ r1). split; [|split].
  - destruct r2; [contradiction | discriminate].
  - now rewrite app_assoc.
  - intros Ha. apply Ha2.
    destruct r as [|a r']; [|exact Ha].
    destruct r2; [contradiction | exact Ha].
Qed.

Lemma reduce_idempotent_witness :
  (reduce (root_reducer (list_eq_dec string_dec) is_descentent_of)
     (map Path ["a/b"; "a"; "x/y"]) [] = Ok (map Path ["a"; "x/y"])
   /\ forall x, is_descentent_of x x = false)
  /\ reduce (root_reducer (list_eq_dec string_dec) is_descentent_of)
       (map Path ["a"; "x/y"]) [] = Ok (map Path ["a"; "x/y"]).
Proof.
  split; [split; [reflexivity | exact is_descentent_of_irreflexive]|].
  exact (proj2 (reduce_idempotent (list_eq_dec string_dec) is_descentent_of
                  is_descentent_of_irreflexive)
           (map Path ["a/b"; "a"; "x/y"]) _ eq_refl).
Defined.

(** [FoundModule.is_descendant_of] is a strict partial order: one module is
    a descendant of another exactly when the parts of the other's path are
    the parts of its own path with some left out at the end, the root of an
    absolute path never being left out. *)
Theorem is_descendant_of_strict_order :
  (forall a b : FoundModule,
      is_descendant_of a b = true <->
      exists rest,
        rest <> [] /\ path a = path b ++ rest
        /\ (is_absolute (path a) = true -> path b <> []))
  /\ (forall a : FoundModule, is_descendant_of a a = false)
  /\ (forall a b c : FoundModule,
      is_descendant_of a b = true -> is_descendant_of b c = true ->
      is_descendant_of a c = true)
  /\ (forall a b : FoundModule,
      is_descendant_of a b = true -> is_descendant_of b a = false).
Proof.
  split; [|split; [|split]].
  - intros a b. apply is_descentent_of_spec.
  - intros a. apply is_descentent_of_irreflexive.
  - intros a b c. apply is_descentent_of_transitive.
  - intros a b Hab. destruct (is_descendant_of b a) eqn:Hba; [|reflexivity].
    pose proof (is_descentent_of_transitive _ _ _ Hab Hba) as H.
    unfold is_descendant_of in *.
    now rewrite is_descentent_of_irreflexive in H.
Qed.

(** ** What discovery returns *)

Lemma is_prefix_app (p q : PurePath) :
  is_prefix p q = true -> q = p ++ skipn (List.length p) q.
Proof.
  revert q. induction p as [|a p' IH]; intros q; [reflexivity|].
  destruct q as [|b q']; [discriminate|]. cbn [is_prefix].
  intros H. apply andb_true_iff in H as [Hab H].
  apply String.eqb_eq in Hab. subst b. cbn. f_equal. now apply IH.
Qed.

Lemma relative_to_app (p base rel : PurePath) :
  base <> [] -> relative_to p base = Ok rel -> p = base ++ rel.
Proof.
  intros Hb. unfold relative_to. destruct base as [|a b]; [contradiction|].
  destruct (is_prefix (a :: b) p) eqn:E; [|discriminate].
  intros H. injection H as <-. now apply is_prefix_app.
Qed.

Lemma parent_app_last (l : list string) (x : string) :
  l <> [] -> parent (l ++ [x]) = l.
Proof.
  intros Hl. destruct l as [|a l']; [contradiction|].
  unfold parent. cbn [app]. destruct (l' ++ [x]) eqn:E.
  - destruct l'; discriminate.
  - rewrite <- E. change (a :: l' ++ [x]) with ((a :: l') ++ [x]).
    apply removelast_last.
Qed.

Lemma is_file_parent_is_dir (fs : node) (base l : PurePath) (x : string) :
  is_absolute base = true ->
  is_file fs (base ++ l ++ [x]) = true -> is_dir fs (base ++ l) = true.
Proof.
  intros Ha. unfold is_file, is_dir, lookup.
  rewrite !(below_is_absolute base Ha).
  destruct base as [|r names]; [discriminate|]. cbn [app tl].
  rewrite (app_assoc names l [x]).
  destruct (walk_names [] fs ((names ++ l) ++ [x])) eqn:W; [|discriminate].
  intros _.
  destruct (walk_names_last [] fs (names ++ l) x) as (up' & es & ->);
    [congruence | reflexivity].
Qed.

Section Collect.

Variable fs : node.
Variable search_dir_ : string.
Variable base : PurePath.
Variable pats : list RelPathPattern.
Hypothesis base_absolute : is_absolute base = true.
Hypothesis base_is_dir : is_dir fs base = true.

(** Every module [collect] appends is as [module_ok] says. *)
Lemma collect_sound (paths : list PurePath) (found found' : list FoundModule) :
  Forall (module_ok fs search_dir_ base pats) found ->
  collect fs search_dir_ base pats paths found = Ok found' ->
  Forall (module_ok fs search_dir_ base pats) found'.
Proof.
  revert found. induction paths as [|path_ rest IH]; intros found Hf.
  - cbn. intros H. now injection H as <-.
  - cbn [collect].
    destruct (relative_to path_ base) as [rel|e] eqn:R; [|discriminate].
    cbn [bind].
    assert (path_ = base ++ rel) as Hp.
    { apply relative_to_app; [|exact R]. intros ->. discriminate. }
    destruct (is_file fs path_) eqn:F; cbn [negb]; [|now apply IH].
    destruct (path_eqb rel ["__init__.py"]) eqn:I; [now apply IH|].
    destruct (existsb (contains ".") (parent rel)) eqn:D; [now apply IH|].
    destruct (is_namespace_init fs path_) as [[|]|e] eqn:N; cbn [bind];
      [now apply IH | | discriminate].
    destruct (is_excluded fs base pats path_) as [[|]|e] eqn:X; cbn [bind];
      [now apply IH | | discriminate].
    assert (rel <> []) as Hrel.
    { intros ->. rewrite app_nil_r in Hp. subst path_.
      unfold is_file, is_dir in *. destruct (lookup fs base) as [[| |]|];
        discriminate. }
    destruct (String.eqb (path_name path_) "__init__.py") eqn:E;
      apply IH; apply Forall_app; (split; [exact Hf|]);
      (constructor; [|constructor]); unfold module_ok;
      cbn [path rel_path search_dir].
    + (* the init file of a package *)
      apply String.eqb_eq in E.
      destruct (exists_last Hrel) as (l & x & ->).
      rewrite Hp, (below_name base base_absolute) in E. subst x.
      assert (l <> []) as Hl.
      { intros ->. unfold path_eqb in I. cbn [app] in I.
        now destruct (list_eq_dec string_dec ["__init__.py"] ["__init__.py"]). }
      rewrite (parent_app_last l _ Hl) in *.
      rewrite Hp, (below_parent base base_absolute).
      split; [reflexivity|]. split; [reflexivity|]. split; [exact Hl|].
      right. unfold is_package_dir. cbn [path].
      rewrite <- app_assoc, <- Hp.
      repeat split; try assumption.
      rewrite Hp in F. now apply is_file_parent_is_dir in F.
    + (* a module file *)
      apply String.eqb_neq in E.
      split; [reflexivity|]. split; [exact Hp|]. split; [exact Hrel|].
      left. unfold is_module_file. cbn [path]. now repeat split.
Qed.

End Collect.

Lemma find_module_roots_inv (fs : node) (search_dir_ : string)
    (exclude : list string) (roots : list FoundModule) :
  find_module_roots fs search_dir_ exclude = Ok roots ->
  (path_exists fs (Path search_dir_) = false /\ roots = [])
  \/ exists pats found,
      mapM (fun item => RelPathPattern_of (inl item)) exclude = Ok pats
      /\ is_dir fs (resolve (Path search_dir_)) = true
      /\ collect fs search_dir_ (resolve (Path search_dir_)) pats
           (glob fs (resolve (Path search_dir_))) [] = Ok found
      /\ reduce (root_reducer FoundModule_eq_dec is_descendant_of) found []
         = Ok roots.
Proof.
  unfold find_module_roots.
  destruct (path_exists fs (Path search_dir_)); cbn [negb].
  - destruct (mapM _ exclude) as [pats|e]; [|discriminate]. cbn [bind].
    destruct (is_dir fs (resolve (Path search_dir_))); [|discriminate].
    cbn [negb].
    destruct (collect _ _ _ _ _ _) as [found|e] eqn:C; [|discriminate].
    cbn [bind]. intros H. right. exists pats, found. now repeat split.
  - intros H. injection H as <-. now left.
Qed.

Lemma found_roots_ok (fs : node) (search_dir_ : string)
    (exclude : list string) (roots : list FoundModule) (m : FoundModule) :
  find_module_roots fs search_dir_ exclude = Ok roots -> In m roots ->
  exists pats,
    mapM (fun item => RelPathPattern_of (inl item)) exclude = Ok pats
    /\ module_ok fs search_dir_ (resolve (Path search_dir_)) pats m.
Proof.
  intros H Hm.
  apply find_module_roots_inv in H
    as [[_ ->] | (pats & found & Hp & Hd & Hc & Hr)]; [destruct Hm|].
  exists pats. split; [exact Hp|].
  apply (collect_sound fs search_dir_ _ pats (is_absolute_resolve _) Hd)
    in Hc; [|constructor].
  destruct (reduce_subseq FoundModule_eq_dec is_descendant_of found [])
    as (roots' & Hr' & Hs).
  rewrite Hr in Hr'. injection Hr' as <-.
  apply (subseq_In _ _ _ Hs) in Hm. cbn [app] in Hm.
  now apply (proj1 (Forall_forall _ _) Hc).
Qed.

(** Every module [find_module_roots] returns lies below the resolved search
    directory, never is that directory, at its relative path, and keeps the
    search directory as it was given.  It is a file that is not an init
    file, below directories without a dot in their names, or a directory
    without a dot in the names of its relative path that holds an init file
    which is no recognised namespace marker; and the file it was found by is
    matched by no exclude pattern. *)
Theorem find_module_roots_sound (fs : node) (search_dir_ : string)
    (exclude : list string) (roots : list FoundModule) (m : FoundModule) :
  find_module_roots fs search_dir_ exclude = Ok roots -> In m roots ->
  (exists pats,
      mapM (fun item => RelPathPattern_of (inl item)) exclude = Ok pats
      /\ module_ok fs search_dir_ (resolve (Path search_dir_)) pats m)
  /\ is_absolute (path m) = true
  /\ is_descentent_of (path m) (resolve (Path search_dir_)) = true.
Proof.
  intros H Hm.
  destruct (found_roots_ok fs search_dir_ exclude roots m H Hm)
    as (pats & Hp & Hok).
  split; [now exists pats|].
  destruct Hok as (_ & Hpath & Hrel & _).
  pose proof (is_absolute_resolve (Path search_dir_)) as Habs.
  rewrite Hpath. split; [now apply below_is_absolute|].
  apply is_descentent_of_spec. exists (rel_path m).
  repeat split; try assumption.
  intros _ Hnil. rewrite Hnil in Habs. discriminate.
Qed.

Lemma find_module_roots_sound_witness :
  (find_module_roots sample_tree "/s" EXCLUDE_PATTERNS = Ok sample_roots
   /\ In {| path := Path "/s/pkg"; rel_path := Path "pkg";
            search_dir := "/s" |} sample_roots)
  /\ is_descentent_of (Path "/s/pkg") (resolve (Path "/s")) = true.
Proof.
  split; [split; [reflexivity | right; now left]|].
  refine (proj2 (proj2 (find_module_roots_sound sample_tree "/s"
                          EXCLUDE_PATTERNS sample_roots
                          {| path := Path "/s/pkg"; rel_path := Path "pkg";
                             search_dir := "/s" |} eq_refl _))).
  right. now left.
Defined.

(** No module [find_module_roots] returns lies below another one it returns:
    the paths of two of them are never one the other with parts added. *)
Theorem find_module_roots_disjoint (fs : node) (search_dir_ : string)
    (exclude : list string) (roots : list FoundModule) :
  find_module_roots fs search_dir_ exclude = Ok roots ->
  antichain is_descendant_of roots
  /\ (forall a b rest,
      In a roots -> In b roots -> rest <> [] -> path a <> path b ++ rest).
Proof.
  intros H.
  assert (antichain is_descendant_of roots) as Ha.
  { pose proof H as H'.
    apply find_module_roots_inv in H'
      as [[_ ->] | (pats & found & _ & _ & _ & Hr)]; [intros x y []|].
    apply (reduce_keeps_antichain FoundModule_eq_dec is_descendant_of
             (fun a => is_descentent_of_irreflexive (path a)) found [] roots);
      [intros x y [] | exact Hr]. }
  split; [exact Ha|].
  intros a b rest Hina Hinb Hne Heq.
  destruct (found_roots_ok _ _ _ _ b H Hinb) as (pats & _ & _ & Hb & _).
  pose proof (Ha a b Hina Hinb) as Hab.
  assert (is_descendant_of a b = true) as Hd; [|congruence].
  apply is_descentent_of_spec. exists rest. repeat split; try assumption.
  intros _ Hnil. rewrite Hnil in Hb.
  pose proof (is_absolute_resolve (Path search_dir_)) as Habs.
  destruct (resolve (Path search_dir_)); discriminate.
Qed.

Lemma find_module_roots_disjoint_witness :
  find_module_roots sample_tree "/s" EXCLUDE_PATTERNS = Ok sample_roots
  /\ antichain is_descendant_of sample_roots.
Proof.
  split; [reflexivity|].
  exact (proj1 (find_module_roots_disjoint sample_tree "/s" EXCLUDE_PATTERNS
                  sample_roots eq_refl)).
Defined.

(** ** The paths of the glob *)

Lemma glob_py_unfold (es : list (string * node)) (here : PurePath) :
  glob_py (Dir es) here =
  map (fun e => here ++ [fst e]) (filter (fun e => fnmatch (fst e) "*.py") es)
  ++ flat_map (fun e => glob_py (snd e) (here ++ [fst e])) es.
Proof.
  cbn [glob_py]. f_equal.
  induction es as [|[name_ child] es' IH]; [reflexivity|].
  cbn [flat_map fst snd]. now rewrite <- IH.
Qed.

Lemma wf_node_unfold (es : list (string * node)) :
  wf_node (Dir es)
  = forallb (fun e => valid_name (fst e) && wf_node (snd e)) es.
Proof.
  cbn [wf_node].
  induction es as [|[name_ child] es' IH]; [reflexivity|].
  cbn [forallb fst snd]. now rewrite <- IH.
Qed.

Lemma node_size_child (es : list (string * node)) (e : string * node) :
  In e es -> node_size (snd e) < node_size (Dir es).
Proof.
  cbn [node_size]. induction es as [|[name_ child] es' IH]; [intros []|].
  intros [<- | H]; cbn [snd]; [lia|]. specialize (IH H). lia.
Qed.

(** The glob gives paths below where it starts, made of names of the tree,
    the last of them matching [*.py]. *)
Lemma glob_py_names (n : node) (here p : PurePath) :
  wf_node n = true -> In p (glob_py n here) ->
  exists l x,
    p = here ++ l ++ [x]
    /\ Forall (fun s => valid_name s = true) (l ++ [x])
    /\ fnmatch x "*.py" = true.
Proof.
  remember (node_size n) as k eqn:Hk.
  revert n here p Hk.
  induction k as [k IH] using lt_wf_ind. intros n here p Hk Hwf Hp.
  destruct n as [t|es|e]; [destruct Hp| |destruct Hp].
  rewrite glob_py_unfold in Hp. rewrite wf_node_unfold in Hwf.
  apply in_app_or in Hp as [Hp | Hp].
  - apply in_map_iff in Hp as (e & <- & He).
    apply filter_In in He as [He Hm].
    apply (proj1 (forallb_forall _ _) Hwf) in He.
    apply andb_true_iff in He as [Hv _].
    exists [], (fst e). repeat split; [|exact Hm].
    constructor; [exact Hv | constructor].
  - apply in_flat_map in Hp as (e & He & Hp).
    pose proof (proj1 (forallb_forall _ _) Hwf e He) as Hwe.
    apply andb_true_iff in Hwe as [Hv Hwc].
    destruct (IH (node_size (snd e))
                (eq_ind_r (fun k => _ < k) (node_size_child es e He) Hk)
                (snd e) (here ++ [fst e]) p eq_refl Hwc Hp)
      as (l & x & -> & Hf & Hm).
    exists (fst e :: l), x. repeat split.
    + now rewrite <- !app_assoc.
    + cbn [app]. now constructor.
    + exact Hm.
Qed.

Lemma valid_names_relative (rel : PurePath) :
  Forall (fun s => valid_name s = true) rel -> is_absolute rel = false.
Proof.
  intros H. destruct rel as [|r rel']; [reflexivity|].
  inversion H as [|? ? Hr _]. subst. cbn [is_absolute].
  apply andb_true_iff in Hr as [_ Hr]. apply negb_true_iff in Hr.
  destruct r as [|c r']; [reflexivity|]. cbn [startswith contains] in *.
  apply orb_false_iff in Hr as [Hc _].
  rewrite andb_true_r, Ascii.eqb_sym. exact Hc.
Qed.

Section CollectTotal.

Variable fs : node.
Variable search_dir_ : string.
Variable base : PurePath.
Variable pats : list RelPathPattern.
Hypothesis base_absolute : is_absolute base = true.


End CollectTotal.

Lemma glob_below (fs n : node) (base : PurePath) :
  is_absolute base = true -> lookup fs base = Some n -> wf_node n = true ->
  Forall (fun p => exists rel,
              p = base ++ rel
              /\ Forall (fun s => valid_name s = true) rel
              /\ fnmatch (last rel "") "*.py" = true)
    (glob fs base).
Proof.
  intros Ha Hn Hwf. unfold glob. rewrite Hn. apply Forall_forall.
  intros p Hp. apply (glob_py_names n base p Hwf) in Hp
    as (l & x & -> & Hv & Hm).
  exists (l ++ [x]). repeat split; [exact Hv|]. now rewrite last_last.
Qed.




(** ** Import names *)

Lemma fnmatch_py (x : string) :
  fnmatch x "*.py" = true <-> exists s, x = (s ++ ".py")%string.
Proof.
  unfold fnmatch.
  change (translate "*.py") with [GStar; GLit "."; GLit "p"; GLit "y"].
  assert (forall y, match_tokens [GLit "."; GLit "p"; GLit "y"] y = true
                    <-> y = ".py") as Hlit.
  { intros y. split; [|intros ->; reflexivity].
    destruct y as [|a [|b [|c [|d y']]]]; cbn; try discriminate;
      rewrite ?andb_false_r; try discriminate.
    intros H. apply andb_true_iff in H as [Ha H].
    apply andb_true_iff in H as [Hb H]. apply andb_true_iff in H as [Hc _].
    apply Ascii.eqb_eq in Ha, Hb, Hc. now subst. }
  cbn [match_tokens].
  induction x as [|c x' IH].
  - split.
    + cbn. discriminate.
    + intros (s & H). destruct s; discriminate.
  - split.
    + intros H. apply orb_true_iff in H as [H | H].
      * apply (proj1 (Hlit (String c x'))) in H. exists "". exact H.
      * apply IH in H as (s & ->). now exists (String c s).
    + intros (s & H). apply orb_true_iff.
      destruct s as [|a s'].
      * left. apply (proj2 (Hlit (String c x'))). exact H.
      * right. apply IH. injection H as _ ->. now exists s'.
Qed.

Lemma rfind_dot_none (x : string) :
  contains "." x = false -> rfind_dot x = None.
Proof.
  induction x as [|c x' IH]; [reflexivity|]. cbn [contains rfind_dot].
  intros H. apply orb_false_iff in H as [Hc H]. now rewrite (IH H), Hc.
Qed.

Lemma rfind_dot_py (s : string) :
  rfind_dot (s ++ ".py") = Some (String.length s).
Proof.
  induction s as [|c s' IH]; [reflexivity|].
  cbn [append rfind_dot String.length]. now rewrite IH.
Qed.

Lemma take_app (s t : string) : take (String.length s) (s ++ t) = s.
Proof.
  induction s as [|c s' IH]; cbn [append String.length take].
  - now destruct t.
  - now rewrite IH.
Qed.

Lemma length_append (s t : string) :
  String.length (s ++ t) = String.length s + String.length t.
Proof.
  induction s as [|c s' IH]; [reflexivity|].
  cbn [append String.length]. now rewrite IH.
Qed.

(** The name of a file [s.py] without its suffix is [s]; the file [.py]
    has no suffix to lose. *)
Lemma stem_py (s : string) :
  stem (s ++ ".py") = if nonempty s then s else ".py".
Proof.
  unfold stem. rewrite rfind_dot_py, length_append. cbn [String.length].
  destruct s as [|c s']; [reflexivity|].
  cbn [nonempty String.length].
  replace (0 <? S (String.length s'))%nat with true
    by (symmetry; apply Nat.ltb_lt; lia).
  replace (S (String.length s') <? S (String.length s') + 3 - 1)%nat
    with true by (symmetry; apply Nat.ltb_lt; lia).
  cbn [andb]. apply (take_app (String c s')).
Qed.

Lemma stem_without_dot (x : string) : contains "." x = false -> stem x = x.
Proof. intros H. unfold stem. now rewrite rfind_dot_none. Qed.

Lemma without_suffix_relative (l : list string) (x : string) :
  Forall (fun s => valid_name s = true) (l ++ [x]) ->
  without_suffix (l ++ [x]) = Ok (l ++ [stem x]).
Proof.
  intros Hv. unfold without_suffix, path_name.
  rewrite (valid_names_relative _ Hv), last_last, removelast_last.
  apply Forall_app in Hv as [_ Hx]. inversion Hx as [|? ? Hx' _]. subst.
  apply andb_true_iff in Hx' as [Hne _]. now destruct x.
Qed.

Section Provenance.

Variable fs : node.
Variable search_dir_ : string.
Variable base : PurePath.
Variable pats : list RelPathPattern.
Hypothesis base_absolute : is_absolute base = true.
Hypothesis base_is_dir : is_dir fs base = true.

(** Every module in the list comes from one of the paths looked at. *)
Lemma collect_provenance (paths : list PurePath)
    (found found' : list FoundModule) (m : FoundModule) :
  collect fs search_dir_ base pats paths found = Ok found' ->
  In m found' ->
  In m found \/ exists p, In p paths /\ from_candidate fs base p m.
Proof.
  revert found. induction paths as [|path_ rest IH]; intros found.
  - cbn. intros H. injection H as <-. now left.
  - assert (forall f,
               (forall x, In x f -> In x found
                                  \/ from_candidate fs base path_ x) ->
               collect fs search_dir_ base pats rest f = Ok found' ->
               In m found' ->
               In m found \/ (exists p, In p (path_ :: rest)
                                        /\ from_candidate fs base p m))
      as Hnext.
    { intros f Hf Hc Hm. destruct (IH f Hc Hm) as [Hin | (p & Hp & Hfrom)].
      - destruct (Hf m Hin) as [H | H]; [now left|].
        right. exists path_. split; [now left | exact H].
      - right. exists p. split; [now right | exact Hfrom]. }
    assert (collect fs search_dir_ base pats rest found = Ok found' ->
            In m found' ->
            In m found \/ (exists p, In p (path_ :: rest)
                                     /\ from_candidate fs base p m))
      as Hskip by (apply Hnext; intros x Hx; now left).
    cbn [collect].
    destruct (relative_to path_ base) as [rel|e] eqn:R; [|discriminate].
    cbn [bind].
    assert (path_ = base ++ rel) as Hp.
    { apply relative_to_app; [|exact R]. intros ->. discriminate. }
    destruct (is_file fs path_) eqn:F; cbn [negb];
      [|apply Hskip].
    destruct (path_eqb rel ["__init__.py"]) eqn:I; [apply Hskip|].
    destruct (existsb (contains ".") (parent rel));
      [apply Hskip|].
    destruct (is_namespace_init fs path_) as [[|]|e]; cbn [bind];
      [apply Hskip | | discriminate].
    destruct (is_excluded fs base pats path_) as [[|]|e]; cbn [bind];
      [apply Hskip | | discriminate].
    destruct (String.eqb (path_name path_) "__init__.py") eqn:E;
      apply Hnext; intros x Hx;
      (apply in_app_or in Hx as [Hx | [<- | []]]; [now left|]); right;
      exists rel; (split; [exact Hp|]); (split; [exact F|]);
      cbn [path rel_path].
    + right. apply String.eqb_eq in E.
      assert (rel <> []) as Hrel.
      { intros ->. rewrite app_nil_r in Hp. subst path_.
        unfold is_file, is_dir in *.
        destruct (lookup fs base) as [[| |]|]; discriminate. }
      destruct (exists_last Hrel) as (l & x & ->).
      rewrite Hp, (below_name base base_absolute) in E. subst x.
      assert (l <> []) as Hl.
      { intros ->. unfold path_eqb in I. cbn [app] in I.
        now destruct (list_eq_dec string_dec ["__init__.py"] ["__init__.py"]). }
      exists l. rewrite (parent_app_last l _ Hl).
      rewrite Hp, (below_parent base base_absolute). now repeat split.
    + left. apply String.eqb_neq in E. now repeat split.
Qed.

End Provenance.

Lemma file_is_no_dir (fs : node) (p : PurePath) :
  is_file fs p = true -> is_dir fs p = false.
Proof.
  unfold is_file, is_dir. destruct (lookup fs p) as [[| |]|]; congruence.
Qed.

Lemma parent_relative_last (l : list string) (x : string) :
  is_absolute (l ++ [x]) = false -> parent (l ++ [x]) = l.
Proof.
  intros Ha. destruct l as [|a l']; [|now apply parent_app_last].
  unfold parent. cbn [app] in *. now rewrite Ha.
Qed.

(** On a tree whose names are those a directory listing can give, the
    import name of every module [find_module_roots] returns is defined.  For
    a package directory it is the parts of the relative path joined by dots,
    and no part has a dot in it.  For a module file [s.py] below the
    directories [l] it is the names in [l] and [s] joined by dots; no name
    in [l] has a dot in it, but [s] may have, and for the file named [.py]
    the last component is [.py] itself. *)
Theorem found_module_names (fs n : node) (search_dir_ : string)
    (exclude : list string) (roots : list FoundModule) (m : FoundModule) :
  lookup fs (Path search_dir_) = Some n -> wf_node n = true ->
  find_module_roots fs search_dir_ exclude = Ok roots -> In m roots ->
  (is_package_dir fs m = true
   /\ existsb (contains "."%char) (rel_path m) = false
   /\ name m = Ok (join "." (rel_path m)))
  \/ (is_module_file fs m = true
      /\ exists l s,
          rel_path m = l ++ [(s ++ ".py")%string]
          /\ (s ++ ".py")%string <> "__init__.py"
          /\ existsb (contains "."%char) l = false
          /\ name m
             = Ok (join "." (l ++ [if nonempty s then s else ".py"]))).
Proof.
  intros Hn Hwf H Hm.
  pose proof (is_absolute_resolve (Path search_dir_)) as Ha.
  destruct (found_roots_ok _ _ _ _ m H Hm) as (pats0 & _ & Hok).
  apply find_module_roots_inv in H
    as [[_ ->] | (pats & found & Hp & Hd & Hc & Hr)]; [destruct Hm|].
  destruct (reduce_subseq FoundModule_eq_dec is_descendant_of found [])
    as (roots' & Hr' & Hs).
  rewrite Hr in Hr'. injection Hr' as <-.
  apply (subseq_In _ _ _ Hs) in Hm. cbn [app] in Hm.
  destruct (collect_provenance fs search_dir_ _ pats Ha Hd _ _ _ m Hc Hm)
    as [[] | (p & Hp_in & rel & Hprel & Hfile & Hcase)].
  apply lookup_resolve in Hn.
  pose proof (proj1 (Forall_forall _ _) (glob_below fs n _ Ha Hn Hwf) p Hp_in)
    as (rel' & Hprel' & Hvalid & Hlast).
  assert (rel' = rel) as -> by (rewrite Hprel in Hprel';
                                now apply app_inv_head in Hprel').
  clear Hprel'. subst p.
  destruct Hok as (_ & _ & _ & Hkind).
  destruct Hcase as [(Hrel & Hpath & Hnotinit) | (l & -> & Hl & Hrel & Hpath)].
  - (* a module file *)
    right. unfold is_module_file. rewrite Hpath. split; [exact Hfile|].
    apply fnmatch_py in Hlast as (s & Hlast).
    assert (rel <> []) as Hne by (intros ->; destruct s; discriminate).
    destruct (exists_last Hne) as (l & x & ->).
    rewrite last_last in Hlast. subst x.
    exists l, s. rewrite Hrel.
    rewrite (below_name _ Ha) in Hnotinit.
    split; [reflexivity|]. split; [exact Hnotinit|]. split.
    + destruct Hkind as [(_ & _ & Hdots & _) | (Hpkg & _)].
      * rewrite Hrel in Hdots.
        now rewrite (parent_relative_last _ _ (valid_names_relative _ Hvalid))
          in Hdots.
      * unfold is_package_dir in Hpkg. rewrite Hpath in Hpkg.
        rewrite (file_is_no_dir _ _ Hfile) in Hpkg. discriminate.
    + unfold name. rewrite Hrel, (without_suffix_relative _ _ Hvalid).
      cbn [bind]. now rewrite stem_py.
  - (* a package directory *)
    left. unfold is_package_dir. rewrite Hpath.
    assert (is_dir fs (resolve (Path search_dir_) ++ l) = true) as Hdir
      by now apply (is_file_parent_is_dir fs _ l "__init__.py").
    split; [exact Hdir|].
    assert (existsb (contains "."%char) (rel_path m) = false) as Hdots.
    { destruct Hkind as [(Hmod & _) | (_ & _ & Hdots & _)]; [|exact Hdots].
      unfold is_module_file, is_file in Hmod. unfold is_dir in Hdir.
      rewrite Hpath in Hmod.
      destruct (lookup fs (resolve (Path search_dir_) ++ l)) as [[| |]|];
        discriminate. }
    split; [exact Hdots|].
    unfold name. rewrite Hrel in *.
    apply Forall_app in Hvalid as [Hvalid _].
    destruct (exists_last Hl) as (l0 & y & ->).
    rewrite (without_suffix_relative _ _ Hvalid). cbn [bind].
    rewrite existsb_app in Hdots. apply orb_false_iff in Hdots as [_ Hy].
    cbn [existsb] in Hy. rewrite orb_false_r in Hy.
    now rewrite (stem_without_dot _ Hy).
Qed.

Lemma found_module_names_witness :
  (lookup sample_tree (Path "/s")
   = Some (Dir [("top.py", File "");
                ("pkg", Dir [("__init__.py", File "");
                             ("m.py", File "");
                             ("sub", Dir [("__init__.py", File "")])])])
   /\ find_module_roots sample_tree "/s" EXCLUDE_PATTERNS = Ok sample_roots
   /\ In sample_pkg sample_roots)
  /\ ((is_package_dir sample_tree sample_pkg = true
       /\ existsb (contains "."%char) (rel_path sample_pkg) = false
       /\ name sample_pkg = Ok (join "." (rel_path sample_pkg)))
      \/ (is_module_file sample_tree sample_pkg = true
          /\ exists l s,
              rel_path sample_pkg = l ++ [(s ++ ".py")%string]
              /\ (s ++ ".py")%string <> "__init__.py"
              /\ existsb (contains "."%char) l = false
              /\ name sample_pkg
                 = Ok (join "." (l ++ [if nonempty s then s else ".py"])))).
Proof.
  split; [split; [reflexivity | split; [reflexivity | right; now left]]|].
  eapply (found_module_names sample_tree _ "/s" EXCLUDE_PATTERNS sample_roots);
    [reflexivity | reflexivity | reflexivity | right; now left].
Defined.

(** ** Every candidate is covered *)

Section CollectComplete.

Variable fs : node.
Variable search_dir_ : string.
Variable base : PurePath.
Variable pats : list RelPathPattern.

Lemma collect_grows (paths : list PurePath) (found found' : list FoundModule)
    (m : FoundModule) :
  collect fs search_dir_ base pats paths found = Ok found' ->
  In m found -> In m found'.
Proof.
  revert found. induction paths as [|path_ rest IH]; intros found.
  - cbn. intros H. now injection H as <-.
  - cbn [collect].
    destruct (relative_to path_ base) as [rel|e]; [|discriminate].
    cbn [bind].
    destruct (negb (is_file fs path_)); [apply IH|].
    destruct (path_eqb rel ["__init__.py"]); [apply IH|].
    destruct (existsb (contains ".") (parent rel)); [apply IH|].
    destruct (is_namespace_init fs path_) as [[|]|e]; cbn [bind];
      [apply IH | | discriminate].
    destruct (is_excluded fs base pats path_) as [[|]|e]; cbn [bind];
      [apply IH | | discriminate].
    destruct (String.eqb (path_name path_) "__init__.py");
      intros H Hm; apply (IH _ H); apply in_or_app; now left.
Qed.

(** A path that passes the five tests leaves its module in the list. *)
Lemma collect_keeps (paths : list PurePath) (found found' : list FoundModule)
    (p rel : PurePath) :
  collect fs search_dir_ base pats paths found = Ok found' ->
  In p paths ->
  relative_to p base = Ok rel ->
  is_file fs p = true ->
  path_eqb rel ["__init__.py"] = false ->
  existsb (contains "."%char) (parent rel) = false ->
  is_namespace_init fs p = Ok false ->
  is_excluded fs base pats p = Ok false ->
  In (module_of search_dir_ p rel) found'.
Proof.
  intros Hc Hin Hrel Hfile Hinit Hdots Hmark Hexcl. revert found Hc.
  induction paths as [|path_ rest IH]; intros found Hc; [destruct Hin|].
  destruct Hin as [-> | Hin].
  - cbn [collect] in Hc.
    rewrite Hrel in Hc. cbn [bind] in Hc.
    rewrite Hfile, Hinit, Hdots, Hmark in Hc. cbn [negb bind] in Hc.
    rewrite Hexcl in Hc. cbn [bind] in Hc.
    unfold module_of.
    destruct (String.eqb (path_name p) "__init__.py");
      apply (collect_grows _ _ _ _ Hc); apply in_or_app; right; now left.
  - cbn [collect] in Hc.
    destruct (relative_to path_ base) as [rel0|e]; [|discriminate].
    cbn [bind] in Hc.
    destruct (negb (is_file fs path_)); [now apply (IH Hin found)|].
    destruct (path_eqb rel0 ["__init__.py"]); [now apply (IH Hin found)|].
    destruct (existsb (contains ".") (parent rel0));
      [now apply (IH Hin found)|].
    destruct (is_namespace_init fs path_) as [[|]|e]; cbn [bind] in Hc;
      [now apply (IH Hin found) | | discriminate].
    destruct (is_excluded fs base pats path_) as [[|]|e]; cbn [bind] in Hc;
      [now apply (IH Hin found) | | discriminate].
    destruct (String.eqb (path_name path_) "__init__.py");
      now apply (IH Hin _ Hc).
Qed.

End CollectComplete.

(** For a search directory that exists, a file of the glob that passes the
    five tests of the loop is not lost: the module made of it, the file or
    the directory of the init file, is one of the modules returned or lies
    below one of them. *)
Theorem find_module_roots_covers (fs : node) (search_dir_ : string)
    (exclude : list string) (pats : list RelPathPattern)
    (roots : list FoundModule) (p rel : PurePath) :
  path_exists fs (Path search_dir_) = true ->
  find_module_roots fs search_dir_ exclude = Ok roots ->
  mapM (fun item => RelPathPattern_of (inl item)) exclude = Ok pats ->
  In p (glob fs (resolve (Path search_dir_))) ->
  relative_to p (resolve (Path search_dir_)) = Ok rel ->
  is_file fs p = true ->
  path_eqb rel ["__init__.py"] = false ->
  existsb (contains "."%char) (parent rel) = false ->
  is_namespace_init fs p = Ok false ->
  is_excluded fs (resolve (Path search_dir_)) pats p = Ok false ->
  exists r,
    In r roots
    /\ (r = module_of search_dir_ p rel
        \/ is_descendant_of (module_of search_dir_ p rel) r = true).
Proof.
  intros Hexists H Hp Hin Hrel Hfile Hinit Hdots Hmark Hexcl.
  apply find_module_roots_inv in H
    as [[Hex ->] | (pats' & found & Hp' & Hd & Hc & Hr)].
  - congruence.
  - rewrite Hp in Hp'. injection Hp' as <-.
    pose proof (collect_keeps fs search_dir_ _ pats _ _ _ p rel Hc Hin Hrel
                  Hfile Hinit Hdots Hmark Hexcl) as Hm.
    destruct (reduce_roots FoundModule_eq_dec is_descendant_of
                (fun a => is_descentent_of_irreflexive (path a))
                (fun a b c => is_descentent_of_transitive
                                (path a) (path b) (path c))
                found [] [])
      as (roots' & Hr' & _ & Hcov).
    + intros x y [].
    + intros x [].
    + rewrite Hr in Hr'. injection Hr' as <-.
      exact (Hcov _ Hm).
Qed.

Lemma find_module_roots_covers_witness :
  (path_exists sample_tree (Path "/s") = true
   /\ find_module_roots sample_tree "/s" [] = Ok sample_roots
   /\ In (Path "/s/pkg/sub/__init__.py") (glob sample_tree (resolve (Path "/s")))
   /\ relative_to (Path "/s/pkg/sub/__init__.py") (resolve (Path "/s"))
      = Ok (Path "pkg/sub/__init__.py"))
  /\ exists r,
      In r sample_roots
      /\ (r = module_of "/s" (Path "/s/pkg/sub/__init__.py")
                (Path "pkg/sub/__init__.py")
          \/ is_descendant_of
               (module_of "/s" (Path "/s/pkg/sub/__init__.py")
                  (Path "pkg/sub/__init__.py")) r = true).
Proof.
  split; [repeat split; try reflexivity; vm_compute; auto 10|].
  apply (find_module_roots_covers sample_tree "/s" [] []);
    try reflexivity.
  vm_compute. auto 10.
Defined.

(** ** The answers of [is_namespace_init] *)



(** ** The matcher at given inputs *)

Lemma walk_commits_to_first_match_witness :
  (String.eqb "a" "**" = false
   /\ forallb (fun y => negb (fnmatch y "a")) ["x"] = true
   /\ fnmatch "a" "a" = true)
  /\ _is_match_from (Dir []) sample_pattern (Path "x/a/c/a/b") None
       ["a"; "b"] (["x"] ++ "a" :: ["c"; "a"; "b"]) false 0
     = _is_match_from (Dir []) sample_pattern (Path "x/a/c/a/b") None
         ["b"] ["c"; "a"; "b"] true (0 + 1 + 1).
Proof.
  split; [repeat split; reflexivity|].
  exact (walk_commits_to_first_match (Dir []) sample_pattern
           (Path "x/a/c/a/b") None "a" ["b"] ["x"] "a" ["c"; "a"; "b"] 0
           eq_refl eq_refl eq_refl).
Defined.

Lemma walk_anchored_witness :
  (forallb (fun t => negb (String.eqb t "**")) ["test"; "a"] = true
   /\ dir_only sample_pattern = false)
  /\ _is_match_from (Dir []) sample_pattern (Path "test/a/b") None
       ["test"; "a"] (Path "test/a/b") true 0
     = prefix_matches ["test"; "a"] (Path "test/a/b").
Proof.
  split; [split; reflexivity|].
  exact (walk_anchored (Dir []) sample_pattern (Path "test/a/b") None
           ["test"; "a"] (Path "test/a/b") 0 eq_refl eq_refl).
Defined.

Lemma unanchored_pattern_matches_anywhere_witness :
  (contains slash "test" = false /\ "test" <> "" /\ "test" <> "**"
   /\ startswith "!" "test" = false /\ startswith "\!" "test" = false
   /\ is_absolute (Path "a/test/b") = false)
  /\ compiled_match (Dir []) "test" (Path "a/test/b") None
     = Ok (existsb (fun part => fnmatch part "test") (Path "a/test/b")).
Proof.
  split; [repeat split; try reflexivity; discriminate|].
  apply unanchored_pattern_matches_anywhere;
    try reflexivity; discriminate.
Defined.

Lemma _is_match_steps_agree_witness :
  (List.length (terms sample_pattern) - 0)
  + (List.length (Path "x/a/c/a/b") - 0) < 9
  /\ _is_match_steps 9 (Dir []) sample_pattern (Path "x/a/c/a/b") true None
       0 0
     = Some (_is_match (Dir []) sample_pattern (Path "x/a/c/a/b") true None
               0 0).
Proof.
  assert ((List.length (terms sample_pattern) - 0)
          + (List.length (Path "x/a/c/a/b") - 0) < 9) as H
    by (vm_compute; lia).
  split; [exact H|].
  exact (_is_match_steps_agree (Dir []) sample_pattern (Path "x/a/c/a/b")
           None 9 true 0 0 H).
Defined.

(** ** Matching below a match *)

Lemma walk_end_extend (ts parts extra : list string) (a : bool) (i j : nat) :
  walk_end ts parts a i = Some j ->
  walk_end ts (parts ++ extra) a i = Some j.
Proof.
  revert parts a i. induction ts as [|t ts' IH]; intros parts a i;
    [exact (fun H => H)|].
  revert a i. induction parts as [|x parts' IHp]; intros a i; [discriminate|].
  cbn [app]. rewrite !walk_end_step.
  destruct (String.eqb t "**"); [apply (IH (x :: parts'))|].
  destruct (fnmatch x t); [apply IH|].
  destruct a; [discriminate | apply IHp].
Qed.

Lemma verdict_extend (fs : node) (q : RelPathPattern) (p extra : PurePath)
    (rel_to : option PurePath) :
  xorb (negate q) (verdict fs q p rel_to) = true ->
  xorb (negate q) (verdict fs q (p ++ extra) rel_to) = true.
Proof.
  assert (_is_match fs q p (anchored q) rel_to 0 0 = true ->
          _is_match fs q (p ++ extra) (anchored q) rel_to 0 0 = true) as Hraw.
  { unfold _is_match. cbn [skipn]. rewrite !walk_factor.
    destruct (walk_end (terms q) p (anchored q) 0) as [j|] eqn:W;
      [|discriminate].
    rewrite (walk_end_extend _ _ extra _ _ _ W).
    apply walk_end_bounds in W as [[_ Hj] _]. cbn in Hj.
    rewrite firstn_app. replace (j - List.length p) with 0 by lia.
    cbn [firstn]. now rewrite app_nil_r. }
  unfold verdict.
  destruct (negate q), (_is_match fs q p (anchored q) rel_to 0 0);
    cbn [xorb]; try discriminate; intros _; now rewrite Hraw.
Qed.

(** A pattern that is not negated and matches a path matches every path
    below it, with or without [rel_to], [dir_only] or not: what excludes a
    directory excludes all that is in it.  For a negated pattern it is the
    other way round: what it matches below a path, it matches at the path.
    And so a list of patterns none of which is negated, once it excludes a
    path, excludes every path below it. *)
Theorem match_extends_below (fs : node) (q : RelPathPattern)
    (p extra : PurePath) (rel_to : option PurePath) :
  is_absolute (p ++ extra) = false -> is_absolute p = false ->
  (negate q = false ->
   is_match fs q p rel_to = Ok true ->
   is_match fs q (p ++ extra) rel_to = Ok true)
  /\ (negate q = true ->
      is_match fs q (p ++ extra) rel_to = Ok true ->
      is_match fs q p rel_to = Ok true)
  /\ (forall base pats,
      forallb (fun q' => negb (negate q')) pats = true ->
      any_match fs base pats p = Ok true ->
      any_match fs base pats (p ++ extra) = Ok true).
Proof.
  intros Hpe Hp. rewrite !is_match_relative by assumption.
  pose proof (verdict_extend fs q p extra rel_to) as Hext.
  split; [|split].
  - intros Hn H. injection H as H. rewrite Hn in Hext. cbn in Hext.
    now rewrite (Hext H).
  - intros Hn H. injection H as H. rewrite Hn in Hext.
    destruct (verdict fs q p rel_to); [reflexivity|].
    specialize (Hext eq_refl). rewrite H in Hext. discriminate.
  - intros base pats Hall. rewrite !any_match_spec by assumption.
    intros H. injection H as H. f_equal.
    apply existsb_exists in H as (q' & Hin & Hv).
    apply existsb_exists. exists q'. split; [exact Hin|].
    apply (proj1 (forallb_forall _ _) Hall) in Hin.
    apply negb_true_iff in Hin.
    pose proof (verdict_extend fs q' p extra (Some base)) as Hq.
    rewrite Hin in Hq. cbn in Hq. now apply Hq.
Qed.

Lemma match_extends_below_witness :
  (is_absolute (Path ".venv" ++ Path "lib/site.py") = false
   /\ is_absolute (Path ".venv") = false
   /\ is_match (Dir [("s", Dir [(".venv", Dir [])])])
        {| pattern := ".venv/"; terms := [".venv"]; anchored := false;
           negate := false; dir_only := true |}
        (Path ".venv") (Some (Path "/s")) = Ok true)
  /\ is_match (Dir [("s", Dir [(".venv", Dir [])])])
       {| pattern := ".venv/"; terms := [".venv"]; anchored := false;
          negate := false; dir_only := true |}
       (Path ".venv" ++ Path "lib/site.py") (Some (Path "/s")) = Ok true.
Proof.
  split; [repeat split; reflexivity|].
  apply (proj1 (match_extends_below _ _ (Path ".venv") (Path "lib/site.py")
                  _ eq_refl eq_refl)); reflexivity.
Defined.

(** The empty relative path has no part to match a term: no compiled
    pattern matches it, unless it is negated, and then it does. *)
Theorem empty_path_matches_nothing (fs : node) (text : string)
    (q : RelPathPattern) (rel_to : option PurePath) :
  RelPathPattern_init text = Ok q ->
  is_match fs q [] rel_to = Ok (negate q)
  /\ is_match fs q (Path "") rel_to = Ok (negate q)
  /\ is_match fs q (Path ".") rel_to = Ok (negate q).
Proof.
  intros Hq.
  assert (terms q <> []) as Ht.
  { rewrite RelPathPattern_init_eq in Hq. cbv zeta in Hq.
    destruct (filter nonempty _); [discriminate|].
    injection Hq as <-. discriminate. }
  change (Path "") with (@nil string). change (Path ".") with (@nil string).
  assert (is_match fs q [] rel_to = Ok (negate q)) as H; [|now repeat split].
  unfold is_match, _is_match. cbn [is_absolute skipn].
  destruct (terms q) as [|t ts]; [contradiction|].
  rewrite walk_no_part. now destruct (negate q).
Qed.

Lemma empty_path_matches_nothing_witness :
  RelPathPattern_init "!docs"
  = Ok {| pattern := "!docs"; terms := ["docs"]; anchored := false;
          negate := true; dir_only := false |}
  /\ is_match (Dir [])
       {| pattern := "!docs"; terms := ["docs"]; anchored := false;
          negate := true; dir_only := false |} [] None = Ok true.
Proof.
  split; [reflexivity|].
  exact (proj1 (empty_path_matches_nothing (Dir []) "!docs" _ None eq_refl)).
Defined.

Lemma any_match_false (fs : node) (base rel : PurePath)
    (pats : list RelPathPattern) (q : RelPathPattern) :
  any_match fs base pats rel = Ok false -> In q pats ->
  is_match fs q rel (Some base) = Ok false.
Proof.
  induction pats as [|q0 pats' IH]; [intros _ []|].
  cbn [any_match].
  destruct (is_match fs q0 rel (Some base)) as [[|]|e] eqn:M; cbn [bind];
    try discriminate.
  intros H [<- | Hin]; [exact M | now apply IH].
Qed.

(** No module [find_module_roots] returns is at or below a path that an
    exclude pattern without negation matches: once a directory is matched,
    nothing in it is returned. *)
Theorem excluded_paths_hold_no_module (fs : node) (search_dir_ : string)
    (exclude : list string) (pats : list RelPathPattern)
    (roots : list FoundModule) (m : FoundModule) (q : RelPathPattern)
    (d rest : PurePath) :
  find_module_roots fs search_dir_ exclude = Ok roots -> In m roots ->
  mapM (fun item => RelPathPattern_of (inl item)) exclude = Ok pats ->
  In q pats -> negate q = false ->
  rel_path m = d ++ rest ->
  is_match fs q d (Some (resolve (Path search_dir_))) <> Ok true.
Proof.
  intros H Hm Hp Hq Hn Hrel Hmatch.
  pose proof (is_absolute_resolve (Path search_dir_)) as Ha.
  destruct (found_roots_ok _ _ _ _ m H Hm) as (pats' & Hp' & Hok).
  rewrite Hp in Hp'. injection Hp' as <-.
  destruct Hok as (_ & Hpath & _ & Hkind).
  assert (exists tail_,
             is_excluded fs (resolve (Path search_dir_)) pats
               (resolve (Path search_dir_) ++ d ++ tail_) = Ok false)
    as (tail_ & Hex).
  { destruct Hkind as [(_ & _ & _ & Hex) | (_ & _ & _ & _ & Hex)].
    - exists rest. now rewrite <- Hrel, <- Hpath.
    - exists (rest ++ ["__init__.py"]).
      rewrite Hpath, Hrel in Hex. now rewrite <- !app_assoc in Hex. }
  unfold is_excluded in Hex. rewrite (below_relative_to _ Ha) in Hex.
  cbn [bind] in Hex.
  pose proof (any_match_false _ _ _ _ q Hex Hq) as Hfalse.
  assert (is_absolute (d ++ tail_) = false) as Hrel1
    by (unfold is_match in Hfalse;
        destruct (is_absolute (d ++ tail_)); [discriminate | reflexivity]).
  assert (is_absolute d = false) as Hrel2
    by (unfold is_match in Hmatch;
        destruct (is_absolute d); [discriminate | reflexivity]).
  rewrite is_match_relative in Hfalse, Hmatch by assumption.
  injection Hfalse as Hfalse. injection Hmatch as Hmatch.
  pose proof (verdict_extend fs q d tail_
                (Some (resolve (Path search_dir_)))) as Hext.
  rewrite Hn, Hmatch, Hfalse in Hext. cbn in Hext.
  specialize (Hext eq_refl). discriminate.
Qed.

Lemma excluded_paths_hold_no_module_witness :
  (find_module_roots sample_tree "/s" ["docs/"] = Ok sample_roots
   /\ In sample_pkg sample_roots
   /\ mapM (fun item => RelPathPattern_of (inl item)) ["docs/"]
      = Ok [{| pattern := "docs/"; terms := ["docs"]; anchored := false;
               negate := false; dir_only := true |}]
   /\ rel_path sample_pkg = Path "pkg" ++ [])
  /\ is_match sample_tree
       {| pattern := "docs/"; terms := ["docs"]; anchored := false;
          negate := false; dir_only := true |}
       (Path "pkg") (Some (resolve (Path "/s"))) <> Ok true.
Proof.
  split; [repeat split; try reflexivity; right; now left|].
  eapply (excluded_paths_hold_no_module sample_tree "/s" ["docs/"] _
            sample_roots sample_pkg _ (Path "pkg") []);
    [reflexivity | right; now left | reflexivity | now left
    | reflexivity | reflexivity].
Defined.


(** ** Anchoring and skipping *)

(** Anchored and without [**], the terms are used up at the first parts or
    not at all. *)
Lemma walk_end_anchored (ts parts : list string) (i : nat) :
  (forall t, In t ts -> t <> "**") ->
  walk_end ts parts true i
  = if prefix_matches ts parts then Some (i + List.length ts) else None.
Proof.
  revert parts i. induction ts as [|t ts' IH]; intros parts i Hs.
  - cbn. f_equal. lia.
  - destruct parts as [|x parts']; [reflexivity|].
    rewrite walk_end_step. cbn [prefix_matches List.length].
    assert (String.eqb t "**" = false) as ->
      by (apply String.eqb_neq, Hs; now left).
    destruct (fnmatch x t); [|reflexivity]. cbn [andb].
    rewrite IH by (intros t' Ht'; apply Hs; now right).
    destruct (prefix_matches ts' parts'); [|reflexivity]. f_equal. lia.
Qed.

(** Unanchored, a term that is not [**] is looked for from part to part,
    and the walk goes on, anchored, after the first part that matches. *)
Lemma walk_scan_first (fs : node) (self : RelPathPattern) (rp : PurePath)
    (rel_to : option PurePath) (t : string) (ts parts : list string)
    (i : nat) :
  t <> "**" ->
  _is_match_from fs self rp rel_to (t :: ts) parts false i
  = match find_first t parts with
    | Some k =>
        _is_match_from fs self rp rel_to ts (skipn (S k) parts) true
          (i + k + 1)
    | None => false
    end.
Proof.
  intros Ht. apply String.eqb_neq in Ht. revert i.
  induction parts as [|x parts' IH]; intros i; [reflexivity|].
  rewrite walk_step, Ht. cbn [find_first].
  destruct (fnmatch x t).
  - cbn [skipn]. f_equal. lia.
  - rewrite IH. destruct (find_first t parts'); [|reflexivity].
    cbn [skipn]. f_equal. lia.
Qed.

(** C5.  What [is_match] does with the anchor and with [**].
    A text of one term without a slash matches a relative path exactly when
    some part of it, at any depth, matches the term.  An anchored pattern
    without negation and without [**] matches exactly when its terms match
    the first parts of the path one for one, and, when it is [dir_only] and
    [rel_to] is given, those parts are a directory: after a match the walk
    stays anchored.  A [**] followed by another term skips no part or more,
    up to the first part that matches that term, and fails when none does.
    The matches and non-matches of the test suite follow. *)
Theorem is_match_anchoring_and_skipping :
  (forall fs text p rel_to,
      contains slash text = false -> text <> "" -> text <> "**" ->
      startswith "!" text = false -> startswith "\!" text = false ->
      is_absolute p = false ->
      compiled_match fs text p rel_to
      = Ok (existsb (fun part => fnmatch part text) p))
  /\ (forall fs q p rel_to,
      anchored q = true -> negate q = false ->
      (forall t, In t (terms q) -> t <> "**") ->
      is_absolute p = false ->
      is_match fs q p rel_to
      = Ok (prefix_matches (terms q) p
            && match rel_to with
               | Some base =>
                   if dir_only q
                   then is_dir fs
                          (base ++ firstn (List.length (terms q)) p)
                   else true
               | None => true
               end))
  /\ (forall fs self rel_path_ rel_to t ts parts a i,
      t <> "**" ->
      _is_match_from fs self rel_path_ rel_to ("**" :: t :: ts) parts a i
      = match find_first t parts with
        | Some k =>
            _is_match_from fs self rel_path_ rel_to ts (skipn (S k) parts)
              true (i + k + 1)
        | None => false
        end)
  /\ (forall fs rel_to,
      pattern_matches fs "test" "test/a/b" rel_to = Ok true
      /\ pattern_matches fs "test" "a/test/b" rel_to = Ok true
      /\ pattern_matches fs "test" "a/b/test" rel_to = Ok true
      /\ pattern_matches fs "/test" "test/a/b" rel_to = Ok true
      /\ pattern_matches fs "/test" "a/test/b" rel_to = Ok false
      /\ pattern_matches fs "test/a" "test/a/b" rel_to = Ok true
      /\ pattern_matches fs "test/a" "b/test/a" rel_to = Ok false
      /\ pattern_matches fs "**/test/b" "a/test/b/c" rel_to = Ok true
      /\ pattern_matches fs "test/**/c" "test/a/b/c/d" rel_to = Ok true
      /\ pattern_matches fs "test/**/c" "test/c" rel_to = Ok true
      /\ pattern_matches fs "test/**/c" "a/test/c" rel_to = Ok false).
Proof.
  split; [|split; [|split]].
  - intros fs text p rel_to Hs Hne Hstar B E Hp. unfold compiled_match.
    rewrite RelPathPattern_init_eq. cbv zeta.
    assert (pattern_body text = text) as ->
      by (unfold pattern_body; now rewrite B, E).
    rewrite (rstrip_without_suffix _ _ (endswith_contains _ _ Hs)).
    rewrite (split_without_sep _ _ Hs), Hs, B, (endswith_contains _ _ Hs).
    destruct text as [|c t]; [contradiction|]. cbn [filter nonempty bind].
    rewrite is_match_relative by assumption. unfold verdict, _is_match.
    cbn [negate anchored terms skipn xorb]. f_equal.
    apply walk_single_term; [|reflexivity].
    now apply String.eqb_neq.
  - intros fs q p rel_to Ha Hn Hs Hp.
    rewrite is_match_relative by assumption. unfold verdict, _is_match.
    rewrite Hn, Ha. cbn [xorb skipn]. f_equal.
    rewrite walk_factor, (walk_end_anchored _ _ _ Hs).
    now destruct (prefix_matches (terms q) p).
  - intros fs self rel_path_ rel_to t ts parts a i Ht.
    destruct parts as [|x parts']; [reflexivity|].
    rewrite walk_step. change (String.eqb "**" "**") with true. cbv iota.
    now apply walk_scan_first.
  - intros fs rel_to. apply is_match_examples.
Qed.

(** The anchored pattern [test/a] on the path [test/x/y/a]: the second term
    is tried at the second part only. *)
Lemma is_match_anchoring_and_skipping_witness :
  (anchored {| pattern := "test/a"; terms := ["test"; "a"]; anchored := true;
               negate := false; dir_only := false |} = true
   /\ (forall t, In t ["test"; "a"] -> t <> "**")
   /\ is_absolute (Path "test/x/y/a") = false)
  /\ is_match (Dir [])
       {| pattern := "test/a"; terms := ["test"; "a"]; anchored := true;
          negate := false; dir_only := false |}
       (Path "test/x/y/a") None
     = Ok false.
Proof.
  assert (forall t, In t ["test"; "a"] -> t <> "**") as Hs
    by (intros t [<- | [<- | []]]; discriminate).
  split; [repeat split; try reflexivity; exact Hs|].
  exact (proj1 (proj2 is_match_anchoring_and_skipping) (Dir [])
           {| pattern := "test/a"; terms := ["test"; "a"]; anchored := true;
              negate := false; dir_only := false |}
           (Path "test/x/y/a") None eq_refl eq_refl Hs eq_refl).
Defined.

(** ** The spelling of the search directory *)

(** A search directory spelled with [..] or with two slashes is the same
    directory: the modules are found, with paths from the resolved
    directory, and the file [/t/../f] is no directory.  A path through a
    name that does not exist, or through a file, does not exist. *)
Lemma search_dir_spellings :
  find_module_roots spellings_tree "/t/../s" []
  = Ok [{| path := Path "/s/pkg"; rel_path := Path "pkg";
           search_dir := "/t/../s" |}]
  /\ find_module_roots spellings_tree "//s" []
     = Ok [{| path := Path "/s/pkg"; rel_path := Path "pkg";
              search_dir := "//s" |}]
  /\ find_module_roots spellings_tree "/t/../f" [] = Raise AssertionError
  /\ find_module_roots spellings_tree "/nowhere/../s" [] = Ok []
  /\ find_module_roots spellings_tree "/f/../s" [] = Ok []
  /\ glob spellings_tree (resolve (Path "/nowhere/../s"))
     = [Path "/s/pkg/__init__.py"].
Proof. repeat split; reflexivity. Qed.
